(** * Cora RAG service (txtai): segmentation, registry and index synchronisation

    A shallow embedding of [src/web/txtai/app.py]: the sentence splitter
    [simple_segment], the in-memory [documents_store], the
    [_embeddings_indexed] flag and the three request handlers
    [process_text], [search] and [delete_document].  The splitter is the
    same function in [src/txtai/app_simple.py].

    Text is a [string] whose characters are code points below 256; the
    length of a text is its number of characters, as Python's [len]. *)

From Stdlib Require Import ZArith List Bool Ascii String Lia.
From Stdlib Require Import DecimalString DecimalNat Floats.SpecFloat.
Import ListNotations.

Open Scope string_scope.
Open Scope Z_scope.

(** ** Characters and strings *)

(** [len(s)] of a Python string. *)
Definition len (s : string) : Z := Z.of_nat (String.length s).

(** [str.isspace] on one character, which is also the class [\s] of the
    [re] module: tab to carriage return, the four separators 28..31,
    space, NEL (133) and the no-break space (160). *)
Definition isspace (c : ascii) : bool :=
  let n := N_of_ascii c in
  (((9 <=? n) && (n <=? 13)) || ((28 <=? n) && (n <=? 32))
   || (n =? 133) || (n =? 160))%N.

(** The class [[.!?]] of the splitter's look-behind. *)
Definition is_terminal (c : ascii) : bool :=
  (Ascii.eqb c "." || Ascii.eqb c "!" || Ascii.eqb c "?")%char.

(** Truth value of a string: the empty string is false. *)
Definition truthy (s : string) : bool :=
  match s with
  | EmptyString => false
  | String _ _ => true
  end.

Fixpoint lstrip (s : string) : string :=
  match s with
  | EmptyString => EmptyString
  | String c r => if isspace c then lstrip r else s
  end.

Fixpoint rstrip (s : string) : string :=
  match s with
  | EmptyString => EmptyString
  | String c r =>
      match rstrip r with
      | EmptyString => if isspace c then EmptyString else String c EmptyString
      | r' => String c r'
      end
  end.

(** [s.strip()] *)
Definition strip (s : string) : string := rstrip (lstrip s).

(** Every character of [s] is whitespace. *)
Fixpoint all_space (s : string) : bool :=
  match s with
  | EmptyString => true
  | String c r => isspace c && all_space r
  end.

(** ** [re.split(r'(?<=[.!?])\s+', text)]

    The scanner walks the text once.  A match of the pattern starts at a
    whitespace character that directly follows a terminal character and
    runs over the whole run of whitespace ([\s+] is greedy); the pieces
    between the matches are the sentences, and the piece after the last
    match is returned even when it is empty. *)

Inductive scan_state : Type :=
| InText      (* the previous character allows no match to start here *)
| AfterTerm   (* the previous character is one of . ! ? *)
| InSep.      (* inside a match of \s+ *)

Definition cons_head (c : ascii) (l : list string) : list string :=
  match l with
  | [] => [String c EmptyString]
  | p :: ps => String c p :: ps
  end.

Fixpoint re_split_go (st : scan_state) (s : string) : list string :=
  match s with
  | EmptyString => [EmptyString]
  | String c rest =>
      if isspace c then
        match st with
        | InSep => re_split_go InSep rest
        | AfterTerm => EmptyString :: re_split_go InSep rest
        | InText => cons_head c (re_split_go InText rest)
        end
      else
        cons_head c
          (re_split_go (if is_terminal c then AfterTerm else InText) rest)
  end.

Definition re_split_sentences (text : string) : list string :=
  re_split_go InText text.

(** ** [simple_segment] *)

(** One iteration of the [for sentence in sentences] loop, on the pair
    [(chunks, current_chunk)]. *)
Definition segment_step (max_length : Z) (st : list string * string)
  (sentence : string) : list string * string :=
  let '(chunks, current_chunk) := st in
  if len current_chunk + len sentence <? max_length then
    (chunks, current_chunk ++ sentence ++ " ")
  else
    ((if truthy current_chunk then (chunks ++ [strip current_chunk])%list
      else chunks),
     sentence ++ " ").

Definition simple_segment (text : string) (max_length : Z) : list string :=
  let sentences := re_split_sentences text in
  let '(chunks, current_chunk) :=
    fold_left (segment_step max_length) sentences ([], EmptyString) in
  let chunks :=
    if truthy current_chunk then (chunks ++ [strip current_chunk])%list
    else chunks in
  match chunks with
  | [] => [text]
  | _ => chunks
  end.

(** ** [hashlib.md5(content.encode()).hexdigest()]

    MD5 (RFC 1321) on 32-bit words kept in [Z], every addition reduced
    modulo [2^32]. *)

Module MD5.

Definition wrap32 (x : Z) : Z := x mod 2 ^ 32.
Definition add32 (a b : Z) : Z := wrap32 (a + b).
Definition not32 (x : Z) : Z := Z.lxor x (2 ^ 32 - 1).
Definition rotl32 (x c : Z) : Z :=
  Z.lor (wrap32 (Z.shiftl x c)) (Z.shiftr x (32 - c)).

(** [floor(2^32 * abs(sin(i + 1)))] for [i = 0 .. 63]. *)
Definition K : list Z :=
  [3614090360; 3905402710; 606105819; 3250441966; 4118548399; 1200080426;
   2821735955; 4249261313; 1770035416; 2336552879; 4294925233; 2304563134;
   1804603682; 4254626195; 2792965006; 1236535329; 4129170786; 3225465664;
   643717713; 3921069994; 3593408605; 38016083; 3634488961; 3889429448;
   568446438; 3275163606; 4107603335; 1163531501; 2850285829; 4243563512;
   1735328473; 2368359562; 4294588738; 2272392833; 1839030562; 4259657740;
   2763975236; 1272893353; 4139469664; 3200236656; 681279174; 3936430074;
   3572445317; 76029189; 3654602809; 3873151461; 530742520; 3299628645;
   4096336452; 1126891415; 2878612391; 4237533241; 1700485571; 2399980690;
   4293915773; 2240044497; 1873313359; 4264355552; 2734768916; 1309151649;
   4149444226; 3174756917; 718787259; 3951481745].

(** Per-round left rotations. *)
Definition R : list Z :=
  [7; 12; 17; 22; 7; 12; 17; 22; 7; 12; 17; 22; 7; 12; 17; 22;
   5; 9; 14; 20; 5; 9; 14; 20; 5; 9; 14; 20; 5; 9; 14; 20;
   4; 11; 16; 23; 4; 11; 16; 23; 4; 11; 16; 23; 4; 11; 16; 23;
   6; 10; 15; 21; 6; 10; 15; 21; 6; 10; 15; 21; 6; 10; 15; 21].

(** [str.encode()]: UTF-8 of a code point below 256. *)
Definition utf8_char (c : ascii) : list Z :=
  let n := Z.of_N (N_of_ascii c) in
  if n <? 128 then [n]
  else [Z.lor 192 (Z.shiftr n 6); Z.lor 128 (Z.land n 63)].

Fixpoint encode (s : string) : list Z :=
  match s with
  | EmptyString => []
  | String c r => (utf8_char c ++ encode r)%list
  end.

(** The [n] low bytes of [x], least significant first. *)
Fixpoint le_bytes (n : nat) (x : Z) : list Z :=
  match n with
  | O => []
  | S n' => x mod 256 :: le_bytes n' (x / 256)
  end.

Fixpoint of_le_bytes (l : list Z) : Z :=
  match l with
  | [] => 0
  | b :: r => b + 256 * of_le_bytes r
  end.

Definition pad (msg : list Z) : list Z :=
  let n := Z.of_nat (List.length msg) in
  (msg ++ [128] ++ repeat 0 (Z.to_nat ((55 - n) mod 64))
       ++ le_bytes 8 ((8 * n) mod 2 ^ 64))%list.

Definition state : Type := Z * Z * Z * Z.

Definition init : state := (1732584193, 4023233417, 2562383102, 271733878).

(** The sixteen little-endian words of the 64-byte block [blk]. *)
Definition words (blk : list Z) : list Z :=
  map (fun j => of_le_bytes (firstn 4 (skipn (4 * j) blk))) (seq 0 16).

Definition round (M : list Z) (st : state) (i : nat) : state :=
  let '(a, b, c, d) := st in
  let zi := Z.of_nat i in
  let '(f, g) :=
    if zi <? 16 then (Z.lor (Z.land b c) (Z.land (not32 b) d), zi)
    else if zi <? 32 then
      (Z.lor (Z.land d b) (Z.land (not32 d) c), (5 * zi + 1) mod 16)
    else if zi <? 48 then (Z.lxor (Z.lxor b c) d, (3 * zi + 5) mod 16)
    else (Z.lxor c (Z.lor b (not32 d)), (7 * zi) mod 16) in
  let F := add32 (add32 (add32 f a) (nth i K 0)) (nth (Z.to_nat g) M 0) in
  (d, add32 b (rotl32 F (nth i R 0)), b, c).

Definition block (st : state) (blk : list Z) : state :=
  let '(a0, b0, c0, d0) := st in
  let '(a, b, c, d) := fold_left (round (words blk)) (seq 0 64) st in
  (add32 a0 a, add32 b0 b, add32 c0 c, add32 d0 d).

Definition digest (msg : list Z) : state :=
  let p := pad msg in
  fold_left
    (fun st k => block st (firstn 64 (skipn (64 * k) p)))
    (seq 0 (List.length p / 64)) init.

Definition hexdigit (n : Z) : ascii :=
  nth (Z.to_nat n)
    ["0"; "1"; "2"; "3"; "4"; "5"; "6"; "7"; "8"; "9";
     "a"; "b"; "c"; "d"; "e"; "f"]%char "0"%char.

Definition hex_byte (b : Z) (k : string) : string :=
  String (hexdigit (b / 16)) (String (hexdigit (b mod 16)) k).

Definition hex_word (w : Z) (k : string) : string :=
  hex_byte (w mod 256)
    (hex_byte ((w / 256) mod 256)
       (hex_byte ((w / 65536) mod 256)
          (hex_byte ((w / 16777216) mod 256) k))).

Definition hexdigest (content : string) : string :=
  let '(a, b, c, d) := digest (encode content) in
  hex_word a (hex_word b (hex_word c (hex_word d EmptyString))).

End MD5.

(** ** Values and dicts *)

(** Python floats, by their IEEE 754 content; comparisons are
    [SFleb] and [SFltb], false on NaN. *)
Definition float : Type := spec_float.

(** JSON scalars, the values of a metadata mapping and of an index row. *)
Inductive pyval : Type :=
| PNone
| PBool (b : bool)
| PInt (z : Z)
| PFloat (f : float)
| PStr (s : string).

(** [bool(v)] *)
Definition pytruthy (v : pyval) : bool :=
  match v with
  | PNone => false
  | PBool b => b
  | PInt z => negb (z =? 0)
  | PFloat f =>
      match f with
      | S754_zero _ => false
      | _ => true
      end
  | PStr s => truthy s
  end.

(** A [dict] with string keys, in insertion order. *)
Definition dict (V : Type) : Type := list (string * V).

Section Dict.
Context {V : Type}.

Fixpoint dict_get (k : string) (d : dict V) : option V :=
  match d with
  | [] => None
  | (k', v) :: r => if String.eqb k k' then Some v else dict_get k r
  end.

(** [k in d] *)
Definition dict_has (k : string) (d : dict V) : bool :=
  match dict_get k d with
  | Some _ => true
  | None => false
  end.

(** [d[k] = v]: an existing key keeps its place, a new one goes last. *)
Fixpoint dict_set (k : string) (v : V) (d : dict V) : dict V :=
  match d with
  | [] => [(k, v)]
  | (k', v') :: r =>
      if String.eqb k k' then (k, v) :: r else (k', v') :: dict_set k v r
  end.

(** [del d[k]] *)
Fixpoint dict_del (k : string) (d : dict V) : dict V :=
  match d with
  | [] => []
  | (k', v') :: r =>
      if String.eqb k k' then r else (k', v') :: dict_del k r
  end.

(** [{**d, **m}] *)
Definition dict_update (d m : dict V) : dict V :=
  fold_left (fun acc kv => dict_set (fst kv) (snd kv) acc) m d.

(** [d.get(k, default)] *)
Definition dict_get_default (k : string) (default : V) (d : dict V) : V :=
  match dict_get k d with
  | Some v => v
  | None => default
  end.
End Dict.

(** [needle in hay] on strings. *)
Fixpoint str_contains (needle hay : string) : bool :=
  String.prefix needle hay
  || match hay with
     | EmptyString => false
     | String _ r => str_contains needle r
     end.

(** [f"{i}"] for a non-negative [int]. *)
Definition str_of_nat (i : nat) : string :=
  NilEmpty.string_of_uint (Nat.to_uint i).

(** ** Exceptions and the state of the process *)

(** [fastapi.HTTPException] derives from [Exception], so a handler
    [except Exception] catches both constructors. *)
Inductive exn : Type :=
| HTTPException (status_code : Z) (detail : string)
| Exception (kind msg : string).

(** [str(e)] *)
Definition str_exn (e : exn) : string :=
  match e with
  | HTTPException c d => str_of_nat (Z.to_nat c) ++ ": " ++ d
  | Exception _ msg => msg
  end.

Inductive result (A : Type) : Type :=
| Ok (a : A)
| Raise (e : exn).
Arguments Ok {A} a.
Arguments Raise {A} e.

(** A row of the index: the dict handed to [embeddings.index]. *)
Definition document : Type := dict pyval.

(** A similarity result: the dict the index returns, split into its
    float ["score"] and its other keys. *)
Record hit : Type := {
  hit_score : float;
  hit_fields : dict pyval
}.

Inductive index_call : Type :=
| CallSelect (where_doc_id_ne : option string) (limit : Z)
| CallSimilar (query : string) (limit : Z)
| CallIndex (documents : list document).

(** Modelled from the spec: the vector index ([txtai.Embeddings]) is an
    external collaborator with two primitives, [commit(chunks)], which
    replaces the whole contents, and [query(filter, limit)], which reads
    the committed chunks back, fields passed through verbatim; either may
    fail.  [sections] is the committed generation, [faults] says for each
    coming call whether it raises (none left: it succeeds), [ranker] is
    the opaque similarity search and [calls] logs every call made, latest
    first.  A call that raises leaves the committed generation as it
    was. *)
Record Embeddings : Type := {
  sections : list document;
  faults : list bool;
  ranker : string -> Z -> list document -> list hit;
  calls : list index_call
}.

(** The entry of [documents_store] for one document. *)
Record doc_info : Type := {
  info_title : string;
  info_chunks : Z;
  info_metadata : option (dict pyval)
}.

(** The module's globals. *)
Record World : Type := {
  documents_store : dict doc_info;
  _embeddings_indexed : bool;
  embeddings : Embeddings
}.

(** Computations on the globals that may raise; what was written before
    an exception stays written. *)
Definition M (A : Type) : Type := World -> result A * World.

Definition ret {A : Type} (a : A) : M A := fun w => (Ok a, w).

Definition raise {A : Type} (e : exn) : M A := fun w => (Raise e, w).

Definition bind {A B : Type} (m : M A) (f : A -> M B) : M B :=
  fun w =>
    match m w with
    | (Ok a, w') => f a w'
    | (Raise e, w') => (Raise e, w')
    end.

(** [try: body  except Exception as e: handler] *)
Definition try_except {A : Type} (body : M A) (handler : exn -> M A) : M A :=
  fun w =>
    match body w with
    | (Ok a, w') => (Ok a, w')
    | (Raise e, w') => handler e w'
    end.

Declare Scope py_scope.
Delimit Scope py_scope with py.
Notation "x <- m ;; k" := (bind m (fun x => k))
  (at level 100, m at next level, right associativity) : py_scope.
Notation "m ;;; k" := (bind m (fun _ => k))
  (at level 100, right associativity) : py_scope.
Open Scope py_scope.

Definition get_store : M (dict doc_info) :=
  fun w => (Ok (documents_store w), w).

Definition set_store (d : dict doc_info) : M unit :=
  fun w =>
    (Ok tt, {| documents_store := d;
               _embeddings_indexed := _embeddings_indexed w;
               embeddings := embeddings w |}).

Definition get_indexed : M bool :=
  fun w => (Ok (_embeddings_indexed w), w).

Definition set_indexed (b : bool) : M unit :=
  fun w =>
    (Ok tt, {| documents_store := documents_store w;
               _embeddings_indexed := b;
               embeddings := embeddings w |}).

(** ** The calls to the index *)

Definition index_unavailable : exn := Exception "Exception" "index unavailable".

(** One call: it is logged, takes the next fault, and on success returns
    [out] and leaves [secs] committed. *)
Definition index_call_step {A : Type} (c : index_call) (out : A)
  (secs : list document) : M A :=
  fun w =>
    let e := embeddings w in
    let failed := hd false (faults e) in
    let e' := {| sections := if failed then sections e else secs;
                 faults := tl (faults e);
                 ranker := ranker e;
                 calls := c :: calls e |} in
    (if failed then Raise index_unavailable else Ok out,
     {| documents_store := documents_store w;
        _embeddings_indexed := _embeddings_indexed w;
        embeddings := e' |}).

(** [doc_id != 'X'] on one row. *)
Definition doc_id_differs (doc_id : string) (row : document) : bool :=
  match dict_get "doc_id" row with
  | Some (PStr d) => negb (String.eqb d doc_id)
  | _ => true
  end.

Definition select_rows (where_doc_id_ne : option string) (limit : Z)
  (secs : list document) : list document :=
  firstn (Z.to_nat limit)
    (match where_doc_id_ne with
     | None => secs
     | Some d => filter (doc_id_differs d) secs
     end).

(** [embeddings.search("SELECT * FROM sections ...", limit=limit)] *)
Definition embeddings_select (where_doc_id_ne : option string) (limit : Z)
  : M (list document) :=
  fun w =>
    let secs := sections (embeddings w) in
    index_call_step (CallSelect where_doc_id_ne limit)
      (select_rows where_doc_id_ne limit secs) secs w.

(** [embeddings.search(query, limit=limit)] *)
Definition embeddings_search (query : string) (limit : Z) : M (list hit) :=
  fun w =>
    let e := embeddings w in
    index_call_step (CallSimilar query limit)
      (ranker e query limit (sections e)) (sections e) w.

(** [embeddings.index(documents)] *)
Definition embeddings_index (documents : list document) : M unit :=
  index_call_step (CallIndex documents) tt documents.

(** ** Request and response models *)

Record DocumentRequest : Type := {
  content : string;
  title : string;
  metadata : option (dict pyval)
}.

Record SearchRequest : Type := {
  query : string;
  limit : Z;
  threshold : float
}.

Record ProcessResponse : Type := {
  pr_doc_id : string;
  pr_chunks : Z;
  pr_title : string;
  pr_status : string
}.

(** One entry of ["results"] in the answer of [search]. *)
Record scored_chunk : Type := {
  sc_text : pyval;
  sc_score : float;
  sc_doc_id : pyval;
  sc_title : pyval;
  sc_chunk_index : pyval
}.

(** [{"results": ..., "message": ...}] or [{"results": ..., "query": ...}] *)
Record SearchResponse : Type := {
  sr_results : list scored_chunk;
  sr_message : option string;
  sr_query : option string
}.

Record DeleteResponse : Type := {
  dr_message : string;
  dr_doc_id : string
}.

Definition lift {A : Type} (r : result A) : M A := fun w => (r, w).

(** ** [process_text] *)

(** The dict literal of the loop body; [**request.metadata] raises a
    [TypeError] when the metadata is [None], and its keys override the
    five written before it. *)
Definition make_document (doc_id : string) (request : DocumentRequest)
  (i : nat) (chunk : string) : result document :=
  match metadata request with
  | None => Raise (Exception "TypeError" "'NoneType' object is not a mapping")
  | Some m =>
      Ok (dict_update
            [("id", PStr (doc_id ++ "_" ++ str_of_nat i));
             ("text", PStr chunk);
             ("doc_id", PStr doc_id);
             ("title", PStr (title request));
             ("chunk_index", PInt (Z.of_nat i))]
            m)
  end.

(** [for i, chunk in enumerate(chunks): documents.append(...)], counting
    from [i]. *)
Fixpoint build_documents (doc_id : string) (request : DocumentRequest)
  (i : nat) (chunks : list string) : result (list document) :=
  match chunks with
  | [] => Ok []
  | chunk :: rest =>
      match make_document doc_id request i chunk with
      | Raise e => Raise e
      | Ok d =>
          match build_documents doc_id request (S i) rest with
          | Raise e => Raise e
          | Ok ds => Ok (d :: ds)
          end
      end
  end.

Definition internal_error {A : Type} (e : exn) : M A :=
  raise (HTTPException 500 (str_exn e)).

Definition process_text (request : DocumentRequest) : M ProcessResponse :=
  try_except
    (let doc_id := MD5.hexdigest (content request) in
     let chunks := simple_segment (content request) 500 in
     documents <- lift (build_documents doc_id request 0 chunks) ;;
     store <- get_store ;;
     set_store
       (dict_set doc_id
          {| info_title := title request;
             info_chunks := Z.of_nat (List.length chunks);
             info_metadata := metadata request |}
          store) ;;;
     indexed <- get_indexed ;;
     (if negb indexed then
        embeddings_index documents ;;;
        set_indexed true
      else
        try_except
          (existing <- embeddings_select None 10000 ;;
           embeddings_index (existing ++ documents)%list)
          (fun _ =>
             embeddings_index documents ;;;
             set_indexed true)) ;;;
     ret {| pr_doc_id := doc_id;
            pr_chunks := Z.of_nat (List.length chunks);
            pr_title := title request;
            pr_status := "success" |})
    internal_error.

(** ** [search] *)

(** [type(v).__name__] *)
Definition type_name (v : pyval) : string :=
  match v with
  | PNone => "NoneType"
  | PBool _ => "bool"
  | PInt _ => "int"
  | PFloat _ => "float"
  | PStr _ => "str"
  end.

(** The loop [for stored_doc_id, doc_info in documents_store.items()]:
    the first key contained in [result.get("id", "")]; [in] raises a
    [TypeError] on a value that is not a string. *)
Fixpoint find_owner (hay : pyval) (items : dict doc_info)
  : result (option string) :=
  match items with
  | [] => Ok None
  | (stored_doc_id, _) :: rest =>
      match hay with
      | PStr h =>
          if str_contains stored_doc_id h then Ok (Some stored_doc_id)
          else find_owner hay rest
      | _ =>
          Raise (Exception "TypeError"
                   ("argument of type '" ++ type_name hay
                    ++ "' is not iterable"))
      end
  end.

(** [doc_id in documents_store], for a value of any type. *)
Definition store_lookup (doc_id : pyval) (store : dict doc_info)
  : option doc_info :=
  match doc_id with
  | PStr d => dict_get d store
  | _ => None
  end.

(** The body of the loop over the results that pass the threshold. *)
Definition format_result (store : dict doc_info) (r : hit)
  : result scored_chunk :=
  let fields := hit_fields r in
  let doc_id0 := dict_get_default "doc_id" (PStr "") fields in
  match
    (if negb (pytruthy doc_id0) && dict_has "text" fields then
       match find_owner (dict_get_default "id" (PStr "") fields) store with
       | Raise e => Raise e
       | Ok (Some d) => Ok (PStr d)
       | Ok None => Ok doc_id0
       end
     else Ok doc_id0)
  with
  | Raise e => Raise e
  | Ok doc_id =>
      let title0 := dict_get_default "title" (PStr "") fields in
      let title1 :=
        if negb (pytruthy title0) && pytruthy doc_id then
          match store_lookup doc_id store with
          | Some info => PStr (info_title info)
          | None => title0
          end
        else title0 in
      Ok {| sc_text := dict_get_default "text" (PStr "") fields;
            sc_score := hit_score r;
            sc_doc_id := doc_id;
            sc_title := title1;
            sc_chunk_index := dict_get_default "chunk_index" (PInt 0) fields |}
  end.

(** [result["score"] >= request.threshold] *)
Definition passes (threshold : float) (r : hit) : bool :=
  SFleb threshold (hit_score r).

Fixpoint format_results (store : dict doc_info) (threshold : float)
  (results : list hit) : result (list scored_chunk) :=
  match results with
  | [] => Ok []
  | r :: rest =>
      if passes threshold r then
        match format_result store r with
        | Raise e => Raise e
        | Ok f =>
            match format_results store threshold rest with
            | Raise e => Raise e
            | Ok fs => Ok (f :: fs)
            end
        end
      else format_results store threshold rest
  end.

Definition search (request : SearchRequest) : M SearchResponse :=
  try_except
    (indexed <- get_indexed ;;
     if negb indexed then
       ret {| sr_results := [];
              sr_message := Some "No documents indexed";
              sr_query := None |}
     else
       results <- embeddings_search (query request) (limit request) ;;
       store <- get_store ;;
       formatted_results <-
         lift (format_results store (threshold request) results) ;;
       ret {| sr_results := formatted_results;
              sr_message := None;
              sr_query := Some (query request) |})
    internal_error.

(** ** [delete_document] *)

Definition delete_document (doc_id : string) : M DeleteResponse :=
  try_except
    (store <- get_store ;;
     (if negb (dict_has doc_id store) then
        raise (HTTPException 404 "Document not found")
      else ret tt) ;;;
     set_store (dict_del doc_id store) ;;;
     indexed <- get_indexed ;;
     (if indexed then
        try_except
          (remaining <- embeddings_select (Some doc_id) 10000 ;;
           embeddings_index remaining)
          (fun _ => set_indexed false)
      else ret tt) ;;;
     ret {| dr_message := "Document deleted"; dr_doc_id := doc_id |})
    internal_error.

(** ** Sample states and requests *)

Definition nl : string := String (ascii_of_nat 10) EmptyString.

(** An index whose similarity search gives every row the score [s]. *)
Definition flat_ranker (s : float) (_ : string) (lim : Z)
  (secs : list document) : list hit :=
  firstn (Z.to_nat lim)
    (map (fun row => {| hit_score := s; hit_fields := row |}) secs).

(** The state at start-up, with the given coming faults of the index. *)
Definition startup (s : float) (fl : list bool) : World :=
  {| documents_store := [];
     _embeddings_indexed := false;
     embeddings := {| sections := []; faults := fl;
                      ranker := flat_ranker s; calls := [] |} |}.

(** The doubles 0.5 and -0.5. *)
Definition half : float := S754_finite false 4503599627370496 (-53).
Definition minus_half : float := S754_finite true 4503599627370496 (-53).

Definition animals : DocumentRequest :=
  {| content := "Cats are mammals. Dogs are mammals too.";
     title := "animals";
     metadata := Some [] |}.

(** The state after [animals] was inserted at start-up, the index then
    facing the faults [fl]. *)
Definition indexed_animals (s : float) (fl : list bool) : World :=
  snd (process_text animals (startup s (false :: fl))).

Definition animals_id : string := "e034881a56d7b2e5df382be723161404".

Definition plants : DocumentRequest :=
  {| content := "Ferns are plants.";
     title := "plants";
     metadata := Some [] |}.

(** * Notions used in the statements *)

(** ** What a sentence split is

    The spec's words: the text is cut at sentence-terminal punctuation
    followed by whitespace. *)

Definition starts_with_space (s : string) : bool :=
  match s with
  | EmptyString => false
  | String c _ => isspace c
  end.

Fixpoint ends_with_terminal (s : string) : bool :=
  match s with
  | EmptyString => false
  | String c EmptyString => is_terminal c
  | String _ r => ends_with_terminal r
  end.

(** Some terminal character of [s] is directly followed by whitespace. *)
Fixpoint has_break (s : string) : bool :=
  match s with
  | EmptyString => false
  | String c r => (is_terminal c && starts_with_space r) || has_break r
  end.

(** [sentence_split text pieces]: [text] is [pieces] joined by non-empty
    runs of whitespace, each run as long as it can be and directly after
    a terminal character, and no piece has such a place inside. *)
Inductive sentence_split : string -> list string -> Prop :=
| split_last (p : string) :
    has_break p = false ->
    sentence_split p [p]
| split_cons (p sep rest : string) (ps : list string) :
    has_break p = false ->
    ends_with_terminal p = true ->
    sep <> EmptyString ->
    all_space sep = true ->
    starts_with_space rest = false ->
    sentence_split rest ps ->
    sentence_split (p ++ sep ++ rest) (p :: ps).

(** Following the spec's words: the buffer is flushed as a trimmed chunk,
    an empty buffer gives none. *)
Definition flush (buffer : string) : list string :=
  if truthy buffer then [strip buffer] else [].

(** Following the spec's words: greedy accumulation of the sentences; when
    appending the next one would make the buffer reach [maxLength] the
    buffer is flushed and a new one starts with that sentence; what is
    left at the end is flushed. *)
Fixpoint accumulate (maxLength : Z) (buffer : string)
  (sentences : list string) : list string :=
  match sentences with
  | [] => flush buffer
  | s :: rest =>
      if maxLength <=? len buffer + len s then
        (flush buffer ++ accumulate maxLength (s ++ " ") rest)%list
      else accumulate maxLength (buffer ++ s ++ " ") rest
  end.

(** [p] put in front of the first piece. *)
Definition prepend (p : string) (l : list string) : list string :=
  match l with
  | [] => [p]
  | h :: t => (p ++ h) :: t
  end.

(** What the scanner has produced, for each state it may be in. *)
Definition scan_inv (st : scan_state) (s : string) (pieces : list string)
  : Prop :=
  match st with
  | InText => sentence_split s pieces
  | AfterTerm =>
      (starts_with_space s = false /\ sentence_split s pieces)
      \/ (exists sep rest ps,
            s = sep ++ rest /\ sep <> EmptyString /\ all_space sep = true
            /\ starts_with_space rest = false /\ sentence_split rest ps
            /\ pieces = EmptyString :: ps)
  | InSep =>
      exists sep rest,
        s = sep ++ rest /\ all_space sep = true
        /\ starts_with_space rest = false /\ sentence_split rest pieces
  end.

(** ** Proof support *)

Arguments MD5.hexdigest : simpl never.
Arguments simple_segment : simpl never.
Arguments select_rows : simpl never.
Arguments str_of_nat : simpl never.

Ltac unfold_py :=
  unfold process_text, search, delete_document, try_except, bind, lift,
    get_store, get_indexed, set_store, set_indexed, embeddings_select,
    embeddings_search, embeddings_index, index_call_step, internal_error,
    raise, ret.

Ltac step_with H := simpl; rewrite ?H; simpl.

(** ** What [process_text] builds *)

(** The row built for chunk [i] of a document whose metadata is [m]. *)
Definition chunk_document (doc_id ttl : string) (m : dict pyval) (i : nat)
  (chunk : string) : document :=
  dict_update
    [("id", PStr (doc_id ++ "_" ++ str_of_nat i));
     ("text", PStr chunk);
     ("doc_id", PStr doc_id);
     ("title", PStr ttl);
     ("chunk_index", PInt (Z.of_nat i))]
    m.

Fixpoint chunk_documents (doc_id ttl : string) (m : dict pyval) (i : nat)
  (chunks : list string) : list document :=
  match chunks with
  | [] => []
  | chunk :: rest =>
      chunk_document doc_id ttl m i chunk
        :: chunk_documents doc_id ttl m (S i) rest
  end.

(** The rows [process_text] builds for [request]. *)
Definition new_documents (request : DocumentRequest) (m : dict pyval)
  : list document :=
  chunk_documents (MD5.hexdigest (content request)) (title request) m 0
    (simple_segment (content request) 500).

(** The registry entry [process_text] writes for [request]. *)
Definition new_entry (request : DocumentRequest) : doc_info :=
  {| info_title := title request;
     info_chunks := Z.of_nat (List.length (simple_segment (content request) 500));
     info_metadata := metadata request |}.

(** The answer of a successful [process_text]. *)
Definition success_response (request : DocumentRequest) : ProcessResponse :=
  {| pr_doc_id := MD5.hexdigest (content request);
     pr_chunks := Z.of_nat (List.length (simple_segment (content request) 500));
     pr_title := title request;
     pr_status := "success" |}.

(** ** Rows of the index and the documents they belong to *)

(** The row carries [doc_id] in its ["doc_id"] field. *)
Definition has_doc_id (doc_id : string) (row : document) : bool :=
  match dict_get "doc_id" row with
  | Some (PStr d) => String.eqb d doc_id
  | _ => false
  end.

(** Number of rows of the document [doc_id]. *)
Definition count_doc (doc_id : string) (rows : list document) : nat :=
  List.length (filter (has_doc_id doc_id) rows).

(** The ["id"] field of a row. *)
Definition row_id (row : document) : option pyval := dict_get "id" row.

(** The row is chunk [i] of some document: its document id is an MD5
    hex digest [d] and its id is [d_i]. *)
Definition chunk_row (row : document) : Prop :=
  exists d i,
    String.length d = 32%nat
    /\ dict_get "id" row = Some (PStr (d ++ "_" ++ str_of_nat i))
    /\ dict_get "doc_id" row = Some (PStr d).

(** A committed generation whose rows are chunks with pairwise different
    ids. *)
Definition generation_wf (rows : list document) : Prop :=
  NoDup (map row_id rows) /\ Forall chunk_row rows.

(** ** Search results *)

(** The ["id"] of the result is a string, or missing. *)
Definition id_is_text (r : hit) : bool :=
  match dict_get "id" (hit_fields r) with
  | Some (PStr _) => true
  | Some _ => false
  | None => true
  end.

Definition mammals (t : float) : SearchRequest :=
  {| query := "mammals"; limit := 5; threshold := t |}.

(** ** Buffers and groups of sentences *)

(** The buffer after the sentences [g] were appended to an empty one:
    each sentence followed by one space. *)
Fixpoint buffer_of (g : list string) : string :=
  match g with
  | [] => EmptyString
  | s :: r => s ++ " " ++ buffer_of r
  end.

Definition emit (cur : list string) : list (list string) :=
  match cur with
  | [] => []
  | _ => [cur]
  end.

(** The sentences that share a buffer, group by group, [cur] being the
    sentences now in the buffer. *)
Fixpoint group_sentences (maxLength : Z) (cur sentences : list string)
  : list (list string) :=
  match sentences with
  | [] => emit cur
  | s :: rest =>
      if maxLength <=? len (buffer_of cur) + len s then
        (emit cur ++ group_sentences maxLength [s] rest)%list
      else group_sentences maxLength (cur ++ [s])%list rest
  end.

Fixpoint ends_with_space (s : string) : bool :=
  match s with
  | EmptyString => false
  | String c EmptyString => isspace c
  | String _ r => ends_with_space r
  end.

(** ** The other handlers *)

(** [list_documents]: the registry's values in insertion order, and their
    number. *)
Definition list_documents : M (list doc_info * Z) :=
  store <- get_store ;;
  ret (map snd store, Z.of_nat (List.length store)).

Definition model_name : string := "sentence-transformers/all-MiniLM-L6-v2".

Record StatsResponse : Type := {
  st_documents : Z;
  st_chunks : Z;
  st_model : string;
  st_status : string;
  st_error : option string
}.

(** [get_stats]: the inner [try] turns a failing read-back into zero
    chunks; the outer handler answers with status ["error"] instead of
    raising. *)
Definition get_stats : M StatsResponse :=
  try_except
    (indexed <- get_indexed ;;
     total_chunks <-
       (if indexed then
          try_except
            (rows <- embeddings_select None 10000 ;;
             ret (Z.of_nat (List.length rows)))
            (fun _ => ret 0)
        else ret 0) ;;
     store <- get_store ;;
     ret {| st_documents := Z.of_nat (List.length store);
            st_chunks := total_chunks;
            st_model := model_name;
            st_status := "operational";
            st_error := None |})
    (fun e =>
       store <- get_store ;;
       ret {| st_documents := Z.of_nat (List.length store);
              st_chunks := 0;
              st_model := model_name;
              st_status := "error";
              st_error := Some (str_exn e) |}).

Record ChunkRequest : Type := {
  cr_content : string;
  chunk_size : Z;
  overlap : Z
}.

Record ChunkResponse : Type := {
  ck_chunks : list string;
  ck_count : Z;
  ck_avg_size : pyval
}.

(** [float(n)] for an [int] below [2^53]. *)
Definition float_of_int (n : Z) : float := binary_normalize 53 1024 n 0 false.

(** [a / b] on two [int]s below [2^53], [b] not zero: the quotient of
    the two doubles. *)
Definition int_true_div (a b : Z) : float :=
  SFdiv 53 1024 (float_of_int a) (float_of_int b).

(** [sum(len(c) for c in chunks)] *)
Definition total_len (chunks : list string) : Z :=
  fold_left (fun acc c => acc + len c) chunks 0.

(** [chunk_text]; the request's [overlap] is not read. *)
Definition chunk_text (request : ChunkRequest) : M ChunkResponse :=
  try_except
    (let chunks := simple_segment (cr_content request) (chunk_size request) in
     ret {| ck_chunks := chunks;
            ck_count := Z.of_nat (List.length chunks);
            ck_avg_size :=
              match chunks with
              | [] => PInt 0
              | _ => PFloat (int_true_div (total_len chunks)
                               (Z.of_nat (List.length chunks)))
              end |})
    internal_error.

(** ** [process_file] *)

(** An upload: FastAPI leaves [filename] and [content_type] optional. *)
Record UploadFile : Type := {
  filename : option string;
  content_type : option string;
  file_bytes : list Z
}.

(** [str.lower] on a character below 256: A..Z and the capitals 192..222
    other than the multiplication sign move up by 32. *)
Definition lower_char (c : ascii) : ascii :=
  let n := N_of_ascii c in
  if (((65 <=? n) && (n <=? 90))
      || ((192 <=? n) && (n <=? 222) && negb (n =? 215)))%N
  then ascii_of_N (n + 32)
  else c.

Fixpoint lower (s : string) : string :=
  match s with
  | EmptyString => EmptyString
  | String c r => String (lower_char c) (lower r)
  end.

(** [s.endswith(suffix)] *)
Fixpoint endswith (s suffix : string) : bool :=
  String.eqb s suffix
  || match s with
     | EmptyString => false
     | String _ r => endswith r suffix
     end.

Inductive file_kind : Type := Pdf | Docx | Xlsx | Markdown | PlainText.

(** The chain of [if file.filename.lower().endswith(...)]. *)
Definition file_kind_of (name : string) : file_kind :=
  if endswith (lower name) ".pdf" then Pdf
  else if endswith (lower name) ".docx" then Docx
  else if endswith (lower name) ".xlsx" then Xlsx
  else if endswith (lower name) ".md" then Markdown
  else PlainText.

(** The text extraction of each branch, done by [pypdf], [docx],
    [openpyxl], [markdown] and [bytes.decode]: libraries outside the
    repository, taken as given; each may raise. *)
Record Extractors : Type := {
  extract_pdf : list Z -> result string;
  extract_docx : list Z -> result string;
  extract_xlsx : list Z -> result string;
  extract_markdown : list Z -> result string;
  decode_utf8 : list Z -> result string
}.

Definition extract (ex : Extractors) (k : file_kind) : list Z -> result string :=
  match k with
  | Pdf => extract_pdf ex
  | Docx => extract_docx ex
  | Xlsx => extract_xlsx ex
  | Markdown => extract_markdown ex
  | PlainText => decode_utf8 ex
  end.

Definition optional_str (o : option string) : pyval :=
  match o with
  | Some s => PStr s
  | None => PNone
  end.

(** The request [process_file] hands to [process_text]. *)
Definition file_request (name : string) (file : UploadFile)
  (text_content : string) : DocumentRequest :=
  {| content := text_content;
     title := name;
     metadata := Some [("filename", PStr name);
                       ("content_type", optional_str (content_type file))] |}.

Definition process_file (ex : Extractors) (file : UploadFile)
  : M ProcessResponse :=
  try_except
    (match filename file with
     | None =>
         raise (Exception "AttributeError"
                  "'NoneType' object has no attribute 'lower'")
     | Some name =>
         text_content <- lift (extract ex (file_kind_of name) (file_bytes file)) ;;
         process_text (file_request name file text_content)
     end)
    internal_error.

(** ** Sequences of requests *)

Inductive api_call : Type :=
| PostProcessText (request : DocumentRequest)
| PostProcessFile (file : UploadFile)
| PostSearch (request : SearchRequest)
| PostChunk (request : ChunkRequest)
| GetDocuments
| DeleteDocument (doc_id : string)
| GetStats.

(** The state after one request. *)
Definition step (ex : Extractors) (w : World) (c : api_call) : World :=
  match c with
  | PostProcessText request => snd (process_text request w)
  | PostProcessFile file => snd (process_file ex file w)
  | PostSearch request => snd (search request w)
  | PostChunk request => snd (chunk_text request w)
  | GetDocuments => snd (list_documents w)
  | DeleteDocument doc_id => snd (delete_document doc_id w)
  | GetStats => snd (get_stats w)
  end.

Definition run (ex : Extractors) (cs : list api_call) (w : World) : World :=
  fold_left (step ex) cs w.

(** The registry's keys are pairwise different MD5 hex digests. *)
Definition registry_wf (w : World) : Prop :=
  NoDup (map fst (documents_store w))
  /\ Forall (fun k => exists text, k = MD5.hexdigest text)
       (map fst (documents_store w)).

(** Extractors for plain text files only: the bytes are taken as the
    characters. *)
Definition text_only : Extractors :=
  let fail := fun _ : list Z => Raise (Exception "Exception" "unsupported") in
  {| extract_pdf := fail;
     extract_docx := fail;
     extract_xlsx := fail;
     extract_markdown := fail;
     decode_utf8 := fun bytes =>
       Ok (string_of_list_ascii
             (map (fun b => ascii_of_N (Z.to_N b)) bytes)) |}.

Ltac unfold_more :=
  unfold list_documents, get_stats, chunk_text, process_file, try_except,
    bind, lift, get_store, get_indexed, set_store, set_indexed,
    embeddings_select, embeddings_search, embeddings_index, index_call_step,
    internal_error, raise, ret.

(** A plain text upload holding ["Hi."]. *)
Definition notes_txt : UploadFile :=
  {| filename := Some "notes.txt";
     content_type := Some "text/plain";
     file_bytes := [72; 105; 46] |}.

(** No character of [s] is an underscore. *)
Fixpoint no_underscore (s : string) : bool :=
  match s with
  | EmptyString => true
  | String c r => negb (Ascii.eqb c "_") && no_underscore r
  end.

(** ** The handlers of [src/txtai/app_simple.py]

    This variant keeps no flag of its own: it asks the index object for
    [embeddings.config.get("path")], here the parameter [config_path]
    (the file configures ["sentence-transformers/all-MiniLM-L6-v2"]),
    and it has no inner [try] around the calls to the index.
    [simple_segment], [chunk_text] and [list_documents] are the same
    functions as above. *)

Module AppSimple.

Section Handlers.

Variable config_path : option string.

(** [bool(embeddings.config.get("path"))] *)
Definition configured : bool :=
  match config_path with
  | Some p => truthy p
  | None => false
  end.

Definition process_text (request : DocumentRequest) : M ProcessResponse :=
  try_except
    (let doc_id := MD5.hexdigest (content request) in
     let chunks := simple_segment (content request) 500 in
     documents <- lift (build_documents doc_id request 0 chunks) ;;
     store <- get_store ;;
     set_store
       (dict_set doc_id
          {| info_title := title request;
             info_chunks := Z.of_nat (List.length chunks);
             info_metadata := metadata request |}
          store) ;;;
     (if negb configured then embeddings_index documents
      else
        existing <- embeddings_select None 10000 ;;
        embeddings_index (existing ++ documents)%list) ;;;
     ret {| pr_doc_id := doc_id;
            pr_chunks := Z.of_nat (List.length chunks);
            pr_title := title request;
            pr_status := "success" |})
    internal_error.

(** The dict appended for a result that passes the threshold: the fields
    of the raw result, with defaults. *)
Definition format_result (r : hit) : scored_chunk :=
  let fields := hit_fields r in
  {| sc_text := dict_get_default "text" (PStr "") fields;
     sc_score := hit_score r;
     sc_doc_id := dict_get_default "doc_id" (PStr "") fields;
     sc_title := dict_get_default "title" (PStr "") fields;
     sc_chunk_index := dict_get_default "chunk_index" (PInt 0) fields |}.

Fixpoint format_results (threshold : float) (results : list hit)
  : list scored_chunk :=
  match results with
  | [] => []
  | r :: rest =>
      if passes threshold r then
        format_result r :: format_results threshold rest
      else format_results threshold rest
  end.

Definition search (request : SearchRequest) : M SearchResponse :=
  try_except
    (if negb configured then
       ret {| sr_results := [];
              sr_message := Some "No documents indexed";
              sr_query := None |}
     else
       results <- embeddings_search (query request) (limit request) ;;
       ret {| sr_results := format_results (threshold request) results;
              sr_message := None;
              sr_query := Some (query request) |})
    internal_error.

Definition delete_document (doc_id : string) : M DeleteResponse :=
  try_except
    (store <- get_store ;;
     (if negb (dict_has doc_id store) then
        raise (HTTPException 404 "Document not found")
      else ret tt) ;;;
     set_store (dict_del doc_id store) ;;;
     (if configured then
        remaining <- embeddings_select (Some doc_id) 10000 ;;
        embeddings_index remaining
      else ret tt) ;;;
     ret {| dr_message := "Document deleted"; dr_doc_id := doc_id |})
    internal_error.

Definition get_stats : M StatsResponse :=
  try_except
    (total_chunks <-
       (if configured then
          rows <- embeddings_select None 10000 ;;
          ret (Z.of_nat (List.length rows))
        else ret 0) ;;
     store <- get_store ;;
     ret {| st_documents := Z.of_nat (List.length store);
            st_chunks := total_chunks;
            st_model := model_name;
            st_status := "operational";
            st_error := None |})
    (fun e =>
       store <- get_store ;;
       ret {| st_documents := Z.of_nat (List.length store);
              st_chunks := 0;
              st_model := model_name;
              st_status := "error";
              st_error := Some (str_exn e) |}).

End Handlers.

End AppSimple.

Ltac unfold_simple :=
  unfold AppSimple.process_text, AppSimple.search, AppSimple.delete_document,
    AppSimple.get_stats, try_except, bind, lift, get_store, get_indexed,
    set_store, set_indexed, embeddings_select, embeddings_search,
    embeddings_index, index_call_step, internal_error, raise, ret.

(** ** The fallback splitter of [src/txtai/app.py]

    [SimpleSegmentation.__call__]: [re.split(r'[.!?]+', text)], every
    piece trimmed, the empty ones left out. *)

(** [re.split(r'[.!?]+', text)]: the pieces between the runs of terminal
    characters; [in_run] says that the previous character was one. *)
Fixpoint split_terminals (in_run : bool) (s : string) : list string :=
  match s with
  | EmptyString => [EmptyString]
  | String c r =>
      if is_terminal c then
        if in_run then split_terminals true r
        else EmptyString :: split_terminals true r
      else cons_head c (split_terminals false r)
  end.

Definition SimpleSegmentation (text : string) : list string :=
  map strip
    (filter (fun s => truthy (strip s)) (split_terminals false text)).

(** Some character of [s] is one of . ! ? *)
Fixpoint has_terminal (s : string) : bool :=
  match s with
  | EmptyString => false
  | String c r => is_terminal c || has_terminal r
  end.

(** Every character of [s] is whitespace or one of . ! ? *)
Fixpoint only_breaks (s : string) : bool :=
  match s with
  | EmptyString => true
  | String c r => (isspace c || is_terminal c) && only_breaks r
  end.

(** * Properties *)

(** ** Test vectors *)

Example md5_empty : MD5.hexdigest "" = "d41d8cd98f00b204e9800998ecf8427e".
Proof. vm_compute. reflexivity. Qed.

Example md5_abc : MD5.hexdigest "abc" = "900150983cd24fb0d6963f7d28e17f72".
Proof. vm_compute. reflexivity. Qed.

Example md5_animals : MD5.hexdigest (content animals) = animals_id.
Proof. vm_compute. reflexivity. Qed.

Example re_split_runs :
  re_split_sentences ("a.  b! c?" ++ nl ++ nl ++ "d. ")
  = ["a."; "b!"; "c?"; "d."; ""].
Proof. vm_compute. reflexivity. Qed.

Example re_split_no_look_behind :
  re_split_sentences " . x" = [" ."; "x"]
  /\ re_split_sentences "a. .  b" = ["a."; "."; "b"]
  /\ re_split_sentences "" = [""]
  /\ re_split_sentences "a b" = ["a b"].
Proof. vm_compute. auto. Qed.

Example segment_animals :
  simple_segment (content animals) 500
  = ["Cats are mammals. Dogs are mammals too."]
  /\ simple_segment (content animals) 20
     = ["Cats are mammals."; "Dogs are mammals too."].
Proof. vm_compute. auto. Qed.

(** Insert, search and delete of one document, the index never failing. *)
Example animals_scenario :
  let w1 := indexed_animals half [] in
  let '(found, w2) := search (mammals half) w1 in
  let '(deleted, w3) := delete_document animals_id w2 in
  let '(after, _) := search (mammals half) w3 in
  documents_store w1
  = [(animals_id, {| info_title := "animals"; info_chunks := 1;
                     info_metadata := Some [] |})]
  /\ found
     = Ok {| sr_results :=
              [{| sc_text := PStr "Cats are mammals. Dogs are mammals too.";
                  sc_score := half;
                  sc_doc_id := PStr animals_id;
                  sc_title := PStr "animals";
                  sc_chunk_index := PInt 0 |}];
            sr_message := None;
            sr_query := Some "mammals" |}
  /\ deleted
     = Ok {| dr_message := "Document deleted"; dr_doc_id := animals_id |}
  /\ after
     = Ok {| sr_results := []; sr_message := None;
            sr_query := Some "mammals" |}.
Proof. vm_compute. auto. Qed.

(** ** The sentence splitter *)

Lemma isspace_not_terminal (c : ascii) :
  isspace c = true -> is_terminal c = false.
Proof.
  destruct c as [[] [] [] [] [] [] [] []]; vm_compute; congruence.
Qed.

Lemma re_split_go_nonempty (st : scan_state) (s : string) :
  re_split_go st s <> [].
Proof.
  revert st; induction s as [|c r IH]; intros st; simpl.
  - discriminate.
  - destruct (isspace c).
    + destruct st; try discriminate.
      * specialize (IH InText).
        destruct (re_split_go InText r); [congruence | discriminate].
      * apply IH.
    + match goal with |- cons_head _ ?l <> _ => destruct l end; discriminate.
Qed.

Lemma has_break_head (c : ascii) (p : string) :
  has_break (String c p) = (is_terminal c && starts_with_space p) || has_break p.
Proof. reflexivity. Qed.

Lemma ends_with_terminal_cons (c : ascii) (p : string) :
  p <> EmptyString -> ends_with_terminal (String c p) = ends_with_terminal p.
Proof. destruct p; [congruence | reflexivity]. Qed.

(** A character put in front of a split text goes to the first piece,
    unless it is a terminal in front of whitespace. *)
Lemma sentence_split_cons_head (c : ascii) (s : string) (ps : list string) :
  sentence_split s ps ->
  is_terminal c && starts_with_space s = false ->
  sentence_split (String c s) (cons_head c ps).
Proof.
  intros H Hc; inversion H as [p Hp | p sep rest ps' Hp Ht Hne Hsp Hr Hs];
    subst; simpl.
  - apply split_last. rewrite has_break_head, Hc, Hp. reflexivity.
  - change (String c (p ++ sep ++ rest)) with (String c p ++ sep ++ rest).
    destruct p as [|a p']; [discriminate|].
    apply split_cons; auto.
    rewrite has_break_head, Hp.
    simpl in Hc. simpl. rewrite Hc. reflexivity.
Qed.

Lemma re_split_go_inv (s : string) :
  forall st, scan_inv st s (re_split_go st s).
Proof.
  induction s as [|c r IH]; intros st.
  - destruct st; simpl.
    + apply split_last; reflexivity.
    + left; split; [reflexivity | apply split_last; reflexivity].
    + exists EmptyString, EmptyString.
      repeat split; apply split_last; reflexivity.
  - simpl. destruct (isspace c) eqn:Hc.
    + pose proof (isspace_not_terminal c Hc) as Hnt.
      destruct st; simpl.
      * apply sentence_split_cons_head; [apply (IH InText)|].
        rewrite Hnt; reflexivity.
      * right. destruct (IH InSep) as (sep & rest & -> & Hsp & Hr & Hs).
        exists (String c sep), rest, (re_split_go InSep (sep ++ rest)).
        simpl; rewrite Hc, Hsp. repeat split; auto; discriminate.
      * destruct (IH InSep) as (sep & rest & -> & Hsp & Hr & Hs).
        exists (String c sep), rest.
        simpl; rewrite Hc, Hsp. repeat split; auto.
    + assert (Hhead : sentence_split (String c r)
                (cons_head c
                   (re_split_go (if is_terminal c then AfterTerm else InText) r))).
      { destruct (is_terminal c) eqn:Ht.
        - destruct (IH AfterTerm) as [[Hr Hs] | (sep & rest & ps & E & Hne & Hsp & Hr & Hs & Ep)].
          + apply sentence_split_cons_head; auto. rewrite Hr; apply andb_false_r.
          + rewrite Ep, E; simpl.
            change (String c (sep ++ rest))
              with (String c EmptyString ++ sep ++ rest).
            apply split_cons; auto; simpl; rewrite ?Ht; auto.
        - apply sentence_split_cons_head; [apply (IH InText) | rewrite Ht; reflexivity]. }
      destruct st; simpl.
      * exact Hhead.
      * left; split; [exact Hc | exact Hhead].
      * exists EmptyString, (String c r). simpl; rewrite Hc. repeat split; auto.
Qed.

Lemma re_split_sentences_split (text : string) :
  sentence_split text (re_split_sentences text).
Proof. exact (re_split_go_inv text InText). Qed.

Lemma has_break_app (p t : string) :
  ends_with_terminal p = true -> starts_with_space t = true ->
  has_break (p ++ t) = true.
Proof.
  induction p as [|c r IH]; simpl; [discriminate|].
  intros Hp Ht. destruct r as [|a r'].
  - simpl. rewrite Hp, Ht. reflexivity.
  - rewrite (IH Hp Ht). apply orb_true_r.
Qed.

Lemma starts_with_space_app (sep rest : string) :
  sep <> EmptyString -> all_space sep = true ->
  starts_with_space (sep ++ rest) = true.
Proof.
  destruct sep as [|c r]; [congruence|]. simpl.
  intros _ H. apply andb_prop in H. tauto.
Qed.

(** A text with no terminal character in front of whitespace is one
    sentence. *)
Lemma re_split_sentences_whole (text : string) :
  has_break text = false -> re_split_sentences text = [text].
Proof.
  intros H. pose proof (re_split_sentences_split text) as Hs.
  inversion Hs as [p Hp E1 E2 | p sep rest ps Hp Ht Hne Hsp Hr Hs' E1 E2].
  - reflexivity.
  - rewrite <- E1 in H.
    rewrite (has_break_app p (sep ++ rest) Ht
               (starts_with_space_app sep rest Hne Hsp)) in H.
    discriminate.
Qed.

(** The scanner after a piece that ends a sentence. *)
Lemma re_split_go_piece (p tail : string) :
  forall st,
    has_break p = false -> ends_with_terminal p = true ->
    st = InText \/ (st = AfterTerm /\ starts_with_space p = false) ->
    re_split_go st (p ++ tail) = prepend p (re_split_go AfterTerm tail).
Proof.
  induction p as [|c r IH]; intros st Hb Ht Hst; [discriminate|].
  rewrite has_break_head in Hb. apply orb_false_elim in Hb.
  destruct Hb as [Hc Hr].
  assert (Hhead : forall l,
             l <> [] -> cons_head c (prepend r l) = prepend (String c r) l)
    by (intros [|h t] Hl; [congruence | reflexivity]).
  assert (Hne : re_split_go AfterTerm tail <> [])
    by apply re_split_go_nonempty.
  simpl. destruct (isspace c) eqn:Hsp.
  - destruct Hst as [-> | [_ Hst]]; [|simpl in Hst; congruence].
    destruct r as [|a r'].
    { simpl in Ht. rewrite (isspace_not_terminal c Hsp) in Ht. discriminate. }
    rewrite (IH InText Hr Ht (or_introl eq_refl)). now apply Hhead.
  - destruct r as [|a r'].
    + simpl in Ht. rewrite Ht. simpl.
      destruct (re_split_go AfterTerm tail); [congruence | reflexivity].
    + rewrite <- Hhead by exact Hne. f_equal.
      destruct (is_terminal c) eqn:Hterm.
      * apply IH; [exact Hr | exact Ht |].
        right. split; [reflexivity | exact Hc].
      * apply IH; [exact Hr | exact Ht | now left].
Qed.

Lemma re_split_go_in_sep (sep rest : string) :
  all_space sep = true -> starts_with_space rest = false ->
  re_split_go InSep (sep ++ rest) = re_split_go InText rest.
Proof.
  intros Hsep Hrest. induction sep as [|c r IH]; simpl.
  - destruct rest as [|a t]; [reflexivity|].
    simpl in Hrest |- *. rewrite Hrest. reflexivity.
  - simpl in Hsep. apply andb_prop in Hsep. destruct Hsep as [-> Hr]. auto.
Qed.

Lemma re_split_go_separator (sep rest : string) :
  sep <> EmptyString -> all_space sep = true ->
  starts_with_space rest = false ->
  re_split_go AfterTerm (sep ++ rest) = EmptyString :: re_split_go InText rest.
Proof.
  destruct sep as [|c r]; [congruence|]. intros _ Hsep Hrest.
  simpl in Hsep |- *. apply andb_prop in Hsep. destruct Hsep as [-> Hr].
  f_equal. now apply re_split_go_in_sep.
Qed.

(** The split that [sentence_split] describes is the one the scanner
    returns. *)
Lemma sentence_split_unique (text : string) (pieces : list string) :
  sentence_split text pieces -> pieces = re_split_sentences text.
Proof.
  unfold re_split_sentences.
  induction 1 as [p Hp | p sep rest ps Hp Ht Hne Hsp Hr Hs IH].
  - symmetry. now apply re_split_sentences_whole.
  - rewrite (re_split_go_piece p (sep ++ rest) InText Hp Ht (or_introl eq_refl)).
    rewrite (re_split_go_separator sep rest Hne Hsp Hr). simpl.
    rewrite <- IH. f_equal.
    clear. induction p as [|c r IHp]; simpl; [reflexivity | now f_equal].
Qed.

(** ** Trimming *)

Lemma rstrip_app_space (s : string) : rstrip (s ++ " ") = rstrip s.
Proof.
  induction s as [|c r IH]; simpl; [reflexivity|].
  rewrite IH; reflexivity.
Qed.

Lemma lstrip_all_space (s : string) : all_space s = true -> lstrip s = EmptyString.
Proof.
  induction s as [|c r IH]; simpl; [reflexivity|].
  destruct (isspace c); simpl; [exact IH | discriminate].
Qed.

Lemma lstrip_app_space (s : string) :
  lstrip (s ++ " ") = if all_space s then EmptyString else lstrip s ++ " ".
Proof.
  induction s as [|c r IH]; simpl; [reflexivity|].
  destruct (isspace c); simpl; [exact IH | reflexivity].
Qed.

Lemma strip_app_space (s : string) : strip (s ++ " ") = strip s.
Proof.
  unfold strip. rewrite lstrip_app_space.
  destruct (all_space s) eqn:H.
  - rewrite (lstrip_all_space s H); reflexivity.
  - apply rstrip_app_space.
Qed.

Lemma lstrip_head (s : string) : starts_with_space (lstrip s) = false.
Proof.
  induction s as [|c r IH]; simpl; [reflexivity|].
  destruct (isspace c) eqn:H; [exact IH | simpl; exact H].
Qed.

Lemma rstrip_head (s : string) :
  starts_with_space s = false -> starts_with_space (rstrip s) = false.
Proof.
  destruct s as [|c r]; simpl; [reflexivity|].
  intros H. destruct (rstrip r); simpl; rewrite ?H; auto.
Qed.

Lemma lstrip_id (s : string) : starts_with_space s = false -> lstrip s = s.
Proof. destruct s as [|c r]; simpl; [reflexivity|]. intros ->; reflexivity. Qed.

Lemma rstrip_idem (s : string) : rstrip (rstrip s) = rstrip s.
Proof.
  induction s as [|c r IH]; simpl; [reflexivity|].
  destruct (rstrip r) as [|a t] eqn:E.
  - destruct (isspace c) eqn:Hc; simpl; rewrite ?Hc; reflexivity.
  - change (rstrip (String c (String a t)))
      with (match rstrip (String a t) with
            | EmptyString =>
                if isspace c then EmptyString else String c EmptyString
            | r' => String c r'
            end).
    rewrite IH; reflexivity.
Qed.

(** A chunk is trimmed: trimming it again changes nothing, so it neither
    starts nor ends with whitespace. *)
Lemma strip_idem (s : string) : strip (strip s) = strip s.
Proof.
  unfold strip.
  rewrite (lstrip_id (rstrip (lstrip s))).
  - apply rstrip_idem.
  - apply rstrip_head, lstrip_head.
Qed.

(** ** The loop of [simple_segment] is the greedy accumulation *)

Lemma segment_loop_accumulate (max_length : Z) (sentences : list string) :
  forall chunks current_chunk,
    (let '(chunks', current_chunk') :=
       fold_left (segment_step max_length) sentences (chunks, current_chunk) in
     if truthy current_chunk' then chunks' ++ [strip current_chunk']
     else chunks')%list
    = (chunks ++ accumulate max_length current_chunk sentences)%list.
Proof.
  induction sentences as [|s rest IH]; intros chunks cur; simpl.
  - unfold flush. destruct (truthy cur); [reflexivity | now rewrite app_nil_r].
  - destruct (Z.ltb_spec (len cur + len s) max_length) as [Hlt | Hge].
    + destruct (Z.leb_spec max_length (len cur + len s)); [lia|].
      apply IH.
    + destruct (Z.leb_spec max_length (len cur + len s)); [|lia].
      rewrite IH. unfold flush.
      destruct (truthy cur); [now rewrite <- app_assoc | reflexivity].
Qed.

Lemma truthy_app_space (s : string) : truthy (s ++ " ") = true.
Proof. destruct s; reflexivity. Qed.

Lemma accumulate_nonempty (maxLength : Z) (sentences : list string) :
  forall buffer,
    sentences <> [] \/ truthy buffer = true ->
    accumulate maxLength buffer sentences <> [].
Proof.
  induction sentences as [|s rest IH]; intros buffer H; simpl.
  - destruct H as [H | H]; [congruence|]. unfold flush; rewrite H; discriminate.
  - destruct (maxLength <=? len buffer + len s).
    + intros E. apply app_eq_nil in E. destruct E as [_ E].
      revert E. apply IH. right. apply truthy_app_space.
    + apply IH. right.
      destruct buffer; simpl; [apply truthy_app_space | reflexivity].
Qed.

Lemma simple_segment_accumulate (text : string) (max_length : Z) :
  simple_segment text max_length
  = accumulate max_length EmptyString (re_split_sentences text).
Proof.
  unfold simple_segment.
  pose proof (segment_loop_accumulate max_length (re_split_sentences text)
                [] EmptyString) as H.
  destruct (fold_left (segment_step max_length) (re_split_sentences text)
              ([], EmptyString)) as [chunks cur].
  rewrite H; simpl.
  pose proof (accumulate_nonempty max_length (re_split_sentences text)
                EmptyString (or_introl (re_split_go_nonempty InText text))) as Hne.
  destruct (accumulate max_length EmptyString (re_split_sentences text));
    [congruence | reflexivity].
Qed.

Lemma len_nonneg (s : string) : 0 <= len s.
Proof. unfold len; lia. Qed.

Lemma string_length_app (s t : string) :
  String.length (s ++ t) = (String.length s + String.length t)%nat.
Proof. induction s as [|c r IH]; simpl; [reflexivity | now rewrite IH]. Qed.

Lemma len_app (s t : string) : len (s ++ t) = len s + len t.
Proof. unfold len. rewrite string_length_app. lia. Qed.

(** A sentence at least [maxLength] long shares its buffer with no other
    sentence. *)
Lemma accumulate_long_head (maxLength : Z) (s : string) (rest : list string) :
  maxLength <= len s ->
  In (strip s) (accumulate maxLength (s ++ " ") rest).
Proof.
  intros H. destruct rest as [|s' r]; simpl.
  - unfold flush. rewrite truthy_app_space, strip_app_space. now left.
  - pose proof (len_nonneg s'). rewrite len_app.
    change (len " ") with 1.
    destruct (Z.leb_spec maxLength (len s + 1 + len s')); [|lia].
    apply in_or_app; left.
    unfold flush. rewrite truthy_app_space, strip_app_space. now left.
Qed.

Lemma accumulate_long (maxLength : Z) (s : string) (sentences : list string) :
  forall buffer,
    In s sentences -> maxLength <= len s ->
    In (strip s) (accumulate maxLength buffer sentences).
Proof.
  induction sentences as [|s' rest IH]; intros buffer Hin Hlen; [destruct Hin|].
  simpl. destruct Hin as [-> | Hin].
  - pose proof (len_nonneg buffer).
    destruct (Z.leb_spec maxLength (len buffer + len s)); [|lia].
    apply in_or_app; right. now apply accumulate_long_head.
  - destruct (maxLength <=? len buffer + len s').
    + apply in_or_app; right. now apply IH.
    + now apply IH.
Qed.

(** C4: [simple_segment] cuts the text into sentences at terminal
    punctuation followed by whitespace, accumulates them greedily,
    flushing the trimmed buffer whenever the next sentence would make it
    reach [max_length] and once more at the end, and a sentence of length
    [max_length] or more is a chunk of its own. *)
Theorem simple_segment_greedy (text : string) (max_length : Z) :
  (forall pieces,
     sentence_split text pieces <-> pieces = re_split_sentences text)
  /\ simple_segment text max_length
     = accumulate max_length EmptyString (re_split_sentences text)
  /\ (forall s, In s (re_split_sentences text) -> max_length <= len s ->
        In (strip s) (simple_segment text max_length)).
Proof.
  split.
  { intros pieces. split; [apply sentence_split_unique|].
    intros ->. apply re_split_sentences_split. }
  split; [apply simple_segment_accumulate|].
  intros s Hin Hlen.
  rewrite simple_segment_accumulate. now apply accumulate_long.
Qed.

Lemma simple_segment_greedy_witness :
  In (strip "Dogs are mammals too.")
    (simple_segment "Cats are mammals. Dogs are mammals too." 20).
Proof.
  apply (proj2 (proj2 (simple_segment_greedy
                         "Cats are mammals. Dogs are mammals too." 20))).
  - vm_compute. right; left; reflexivity.
  - vm_compute. discriminate.
Defined.

(** ** What the chunks look like *)

Lemma accumulate_trimmed (maxLength : Z) (sentences : list string) :
  forall buffer c,
    In c (accumulate maxLength buffer sentences) -> strip c = c.
Proof.
  assert (Hflush : forall b c, In c (flush b) -> strip c = c).
  { intros b c. unfold flush. destruct (truthy b); simpl; [|tauto].
    intros [<- | []]. apply strip_idem. }
  induction sentences as [|s rest IH]; intros buffer c; simpl.
  - apply Hflush.
  - destruct (maxLength <=? len buffer + len s); [|apply IH].
    intros H. apply in_app_or in H. destruct H as [H | H].
    + eapply Hflush; eauto.
    + eapply IH; eauto.
Qed.

Lemma strip_fixed_not_blank (c : string) :
  strip c = c -> c = EmptyString \/ all_space c = false.
Proof.
  intros H. destruct (all_space c) eqn:E; [left | now right].
  rewrite <- H. unfold strip. now rewrite (lstrip_all_space c E).
Qed.

Lemma accumulate_single (maxLength : Z) (text : string) :
  accumulate maxLength EmptyString [text] = [strip text].
Proof.
  assert (H : flush (text ++ " ") = [strip text]).
  { unfold flush. now rewrite truthy_app_space, strip_app_space. }
  simpl. destruct (maxLength <=? len text); exact H.
Qed.

(** C5 as stated fails: a text without terminal punctuation that starts
    with a space comes back trimmed, not whole. *)
Lemma simple_segment_not_whole :
  " a" <> EmptyString
  /\ has_break " a" = false
  /\ simple_segment " a" 500 = ["a"]
  /\ simple_segment " a" 500 <> [" a"].
Proof. vm_compute. repeat split; discriminate. Qed.

(** The truth test [if current_chunk:] is made before [strip()], so a
    buffer of whitespace is flushed as an empty chunk: for a blank text,
    and after a sentence that fills the buffer when the text goes on with
    whitespace only. *)
Lemma simple_segment_empty_chunk :
  simple_segment " " 500 = [EmptyString]
  /\ simple_segment "a. " 2 = ["a."; EmptyString]
  /\ In EmptyString
       (simple_segment (String.concat "" (repeat "xxxxxxxxx." 50) ++ nl) 500).
Proof. vm_compute. repeat split. right; left; reflexivity. Qed.

(** ** [search] before anything is indexed *)

(** C6: in state NotIndexed, [search] answers with an empty result list
    and makes no call to the index; nothing of the state changes. *)
Theorem search_not_indexed (request : SearchRequest) (w : World) :
  _embeddings_indexed w = false ->
  search request w
  = (Ok {| sr_results := [];
           sr_message := Some "No documents indexed";
           sr_query := None |}, w).
Proof.
  intros H. unfold search, try_except, bind, get_indexed.
  rewrite H. reflexivity.
Qed.

Lemma search_not_indexed_witness :
  search {| query := "mammals"; limit := 5; threshold := half |}
    (startup half [])
  = (Ok {| sr_results := [];
           sr_message := Some "No documents indexed";
           sr_query := None |}, startup half []).
Proof. apply search_not_indexed. reflexivity. Defined.

(** ** [delete_document] *)

(** C2: deleting a document that is in the registry while the state is
    Indexed, when the filtered read-back raises: the flag goes to
    NotIndexed, the only call made to the index is the read-back (no
    commit, the committed rows stay as they were), the registry entry is
    gone and the answer is the deleted message. *)
Theorem delete_readback_failure (doc_id : string) (w : World)
  (rest : list bool) :
  dict_has doc_id (documents_store w) = true ->
  _embeddings_indexed w = true ->
  faults (embeddings w) = true :: rest ->
  exists w',
    delete_document doc_id w
    = (Ok {| dr_message := "Document deleted"; dr_doc_id := doc_id |}, w')
    /\ _embeddings_indexed w' = false
    /\ calls (embeddings w')
       = CallSelect (Some doc_id) 10000 :: calls (embeddings w)
    /\ sections (embeddings w') = sections (embeddings w)
    /\ documents_store w' = dict_del doc_id (documents_store w).
Proof.
  intros Hin Hidx Hf.
  unfold_py. step_with Hin. step_with Hidx. step_with Hf.
  eexists; split; [reflexivity|]. simpl. auto.
Qed.

Lemma delete_readback_failure_witness :
  exists w',
    delete_document animals_id (indexed_animals half [true])
    = (Ok {| dr_message := "Document deleted"; dr_doc_id := animals_id |}, w')
    /\ _embeddings_indexed w' = false
    /\ calls (embeddings w')
       = CallSelect (Some animals_id) 10000
           :: calls (embeddings (indexed_animals half [true]))
    /\ sections (embeddings w')
       = sections (embeddings (indexed_animals half [true]))
    /\ documents_store w'
       = dict_del animals_id (documents_store (indexed_animals half [true])).
Proof.
  apply (delete_readback_failure animals_id (indexed_animals half [true]) []);
    vm_compute; reflexivity.
Defined.

(** C3, as the code runs: for an id that is not in the registry the
    handler raises [HTTPException(404)] inside its own [try], and the
    [except Exception] around it turns that into a 500; the registry, the
    index and the flag are left as they were. *)
Theorem delete_absent (doc_id : string) (w : World) :
  dict_has doc_id (documents_store w) = false ->
  delete_document doc_id w
  = (Raise (HTTPException 500 "404: Document not found"), w).
Proof.
  intros H. unfold_py. step_with H. reflexivity.
Qed.

Lemma delete_absent_witness :
  delete_document "abc" (startup half [])
  = (Raise (HTTPException 500 "404: Document not found"), startup half []).
Proof. apply delete_absent. reflexivity. Defined.

(** ** [process_text] *)

Lemma simple_segment_nonempty (text : string) (max_length : Z) :
  simple_segment text max_length <> [].
Proof.
  rewrite simple_segment_accumulate.
  apply accumulate_nonempty. left. apply re_split_go_nonempty.
Qed.

Lemma build_documents_some (doc_id : string) (request : DocumentRequest)
  (m : dict pyval) (chunks : list string) :
  metadata request = Some m ->
  forall i,
    build_documents doc_id request i chunks
    = Ok (chunk_documents doc_id (title request) m i chunks).
Proof.
  intros Hm. induction chunks as [|c r IH]; intros i; simpl; [reflexivity|].
  unfold make_document. rewrite Hm, IH. reflexivity.
Qed.

Lemma build_documents_none (doc_id : string) (request : DocumentRequest)
  (i : nat) (chunks : list string) :
  metadata request = None -> chunks <> [] ->
  build_documents doc_id request i chunks
  = Raise (Exception "TypeError" "'NoneType' object is not a mapping").
Proof.
  intros Hm Hne. destruct chunks as [|c r]; [congruence|].
  simpl. unfold make_document. rewrite Hm. reflexivity.
Qed.

(** Without metadata the request fails before anything is written. *)
Lemma process_text_no_metadata (request : DocumentRequest) (w : World) :
  metadata request = None ->
  process_text request w
  = (Raise (HTTPException 500 "'NoneType' object is not a mapping"), w).
Proof.
  intros Hm. unfold_py.
  rewrite (build_documents_none _ _ _ _ Hm (simple_segment_nonempty _ _)).
  reflexivity.
Qed.

(** Every way a request with metadata can go, by the state of the flag
    and the coming faults of the index. *)
Lemma process_text_cases (request : DocumentRequest) (m : dict pyval)
  (w : World) :
  metadata request = Some m ->
  let e := embeddings w in
  let docs := new_documents request m in
  let store' :=
    dict_set (MD5.hexdigest (content request)) (new_entry request)
      (documents_store w) in
  let mk := fun idx secs fl cs =>
    {| documents_store := store';
       _embeddings_indexed := idx;
       embeddings := {| sections := secs; faults := fl;
                        ranker := ranker e; calls := cs |} |} in
  let failure := Raise (HTTPException 500 "index unavailable") in
  let f1 := hd false (faults e) in
  let f2 := hd false (tl (faults e)) in
  let f3 := hd false (tl (tl (faults e))) in
  let existing := select_rows None 10000 (sections e) in
  process_text request w =
  if negb (_embeddings_indexed w) then
    if f1 then
      (failure, mk false (sections e) (tl (faults e)) (CallIndex docs :: calls e))
    else
      (Ok (success_response request),
       mk true docs (tl (faults e)) (CallIndex docs :: calls e))
  else if f1 then
    if f2 then
      (failure,
       mk true (sections e) (tl (tl (faults e)))
          (CallIndex docs :: CallSelect None 10000 :: calls e))
    else
      (Ok (success_response request),
       mk true docs (tl (tl (faults e)))
          (CallIndex docs :: CallSelect None 10000 :: calls e))
  else if f2 then
    if f3 then
      (failure,
       mk true (sections e) (tl (tl (tl (faults e))))
          (CallIndex docs :: CallIndex (existing ++ docs)%list
             :: CallSelect None 10000 :: calls e))
    else
      (Ok (success_response request),
       mk true docs (tl (tl (tl (faults e))))
          (CallIndex docs :: CallIndex (existing ++ docs)%list
             :: CallSelect None 10000 :: calls e))
  else
    (Ok (success_response request),
     mk true (existing ++ docs)%list (tl (tl (faults e)))
        (CallIndex (existing ++ docs)%list :: CallSelect None 10000 :: calls e)).
Proof.
  intros Hm. unfold_py.
  rewrite (build_documents_some _ _ _ _ Hm). simpl.
  fold (new_documents request m). fold (new_entry request).
  fold (success_response request).
  destruct (_embeddings_indexed w); simpl;
    destruct (faults (embeddings w)) as [|[] [|[] [|[] r]]]; reflexivity.
Qed.

Lemma dict_get_set_same {V : Type} (k : string) (v : V) (d : dict V) :
  dict_get k (dict_set k v d) = Some v.
Proof.
  induction d as [|[k' v'] r IH]; simpl.
  - now rewrite String.eqb_refl.
  - destruct (String.eqb k k') eqn:E; simpl; rewrite ?E, ?String.eqb_refl; auto.
Qed.

Lemma dict_get_set_other {V : Type} (k k0 : string) (v : V) (d : dict V) :
  String.eqb k k0 = false ->
  dict_get k (dict_set k0 v d) = dict_get k d.
Proof.
  intros Hk. induction d as [|[k' v'] r IH]; simpl.
  - now rewrite Hk.
  - destruct (String.eqb k0 k') eqn:E; simpl.
    + apply String.eqb_eq in E; subst k'. now rewrite Hk.
    + now rewrite IH.
Qed.

(** C1, as the code has it: an insert in state Indexed whose read-back
    raises falls back to committing the new chunks alone, and the flag
    stays Indexed either way; when that commit succeeds the index holds
    exactly the new chunks, every chunk committed before is gone, and the
    answer is the success response; when that commit raises as well, the
    request fails with a 500. *)
Theorem insert_readback_failure (request : DocumentRequest) (m : dict pyval)
  (w : World) (rest : list bool) :
  metadata request = Some m ->
  _embeddings_indexed w = true ->
  faults (embeddings w) = true :: rest ->
  let w' := snd (process_text request w) in
  _embeddings_indexed w' = true
  /\ calls (embeddings w')
     = CallIndex (new_documents request m)
         :: CallSelect None 10000 :: calls (embeddings w)
  /\ (hd false rest = false ->
        fst (process_text request w) = Ok (success_response request)
        /\ sections (embeddings w') = new_documents request m)
  /\ (hd false rest = true ->
        fst (process_text request w)
        = Raise (HTTPException 500 "index unavailable")).
Proof.
  intros Hm Hidx Hf. rewrite (process_text_cases request m w Hm).
  rewrite Hidx, Hf. simpl.
  destruct (hd false rest); simpl; repeat split; auto; discriminate.
Qed.

Lemma insert_readback_failure_witness :
  let w := indexed_animals half [true] in
  let w' := snd (process_text plants w) in
  _embeddings_indexed w' = true
  /\ calls (embeddings w')
     = CallIndex (new_documents plants [])
         :: CallSelect None 10000 :: calls (embeddings w)
  /\ (hd false [] = false ->
        fst (process_text plants w) = Ok (success_response plants)
        /\ sections (embeddings w') = new_documents plants [])
  /\ (hd false [] = true ->
        fst (process_text plants w)
        = Raise (HTTPException 500 "index unavailable")).
Proof.
  apply (insert_readback_failure plants [] (indexed_animals half [true]) []);
    vm_compute; reflexivity.
Defined.

(** C1 as stated fails: the read-back raises, the fall-back commit raises
    too, and the request is answered with a 500, not with success. *)
Lemma insert_readback_failure_not_success :
  let w := indexed_animals half [true; true] in
  _embeddings_indexed w = true
  /\ hd false (faults (embeddings w)) = true
  /\ fst (process_text plants w)
     = Raise (HTTPException 500 "index unavailable")
  /\ _embeddings_indexed (snd (process_text plants w)) = true.
Proof. vm_compute. repeat split. Qed.

(** C10: the registry entry is written before the first call to the
    index: whatever the index does afterwards, the registry holds the new
    entry under the document id; a request that fails fails with the 500
    of a commit that raised, and still leaves that entry behind; and a
    first commit that raises does make the request fail. *)
Theorem insert_not_atomic (request : DocumentRequest) (m : dict pyval)
  (w : World) :
  metadata request = Some m ->
  let doc_id := MD5.hexdigest (content request) in
  let w' := snd (process_text request w) in
  documents_store w'
  = dict_set doc_id (new_entry request) (documents_store w)
  /\ (forall e, fst (process_text request w) = Raise e ->
        e = HTTPException 500 "index unavailable"
        /\ hd_error (calls (embeddings w'))
           = Some (CallIndex (new_documents request m))
        /\ dict_get doc_id (documents_store w') = Some (new_entry request))
  /\ (_embeddings_indexed w = false ->
      hd false (faults (embeddings w)) = true ->
        fst (process_text request w)
        = Raise (HTTPException 500 "index unavailable")
        /\ _embeddings_indexed w' = false).
Proof.
  intros Hm. rewrite (process_text_cases request m w Hm).
  pose proof (dict_get_set_same (MD5.hexdigest (content request))
                (new_entry request) (documents_store w)) as Hget.
  destruct (_embeddings_indexed w); simpl;
    destruct (hd false (faults (embeddings w)));
    destruct (hd false (tl (faults (embeddings w))));
    destruct (hd false (tl (tl (faults (embeddings w)))));
    simpl; repeat split; auto; try discriminate; congruence.
Qed.

Lemma insert_not_atomic_witness :
  let w := startup half [true] in
  let w' := snd (process_text animals w) in
  fst (process_text animals w) = Raise (HTTPException 500 "index unavailable")
  /\ _embeddings_indexed w' = false
  /\ dict_get animals_id (documents_store w') = Some (new_entry animals).
Proof.
  pose proof (insert_not_atomic animals [] (startup half [true]) eq_refl)
    as (_ & Hfail & Hfirst).
  destruct (Hfirst eq_refl eq_refl) as [Hr Hi].
  destruct (Hfail _ Hr) as (_ & _ & Hg).
  repeat split; assumption.
Defined.

(** ** Chunk rows and their ids *)

Lemma dict_has_cons_false {V : Type} (k k' : string) (v : V) (m : dict V) :
  dict_has k ((k', v) :: m) = false ->
  String.eqb k k' = false /\ dict_has k m = false.
Proof.
  unfold dict_has; simpl. destruct (String.eqb k k'); [discriminate | auto].
Qed.

Lemma dict_get_update_absent {V : Type} (k : string) (m : dict V) :
  dict_has k m = false ->
  forall d, dict_get k (dict_update d m) = dict_get k d.
Proof.
  unfold dict_update.
  induction m as [|[k' v] r IH]; intros H d; simpl; [reflexivity|].
  apply dict_has_cons_false in H. destruct H as [Hk Hr].
  rewrite (IH Hr). now apply dict_get_set_other.
Qed.

Lemma chunk_document_id (doc_id ttl : string) (m : dict pyval) (i : nat)
  (chunk : string) :
  dict_has "id" m = false ->
  row_id (chunk_document doc_id ttl m i chunk)
  = Some (PStr (doc_id ++ "_" ++ str_of_nat i)).
Proof.
  intros H. unfold row_id, chunk_document.
  now rewrite (dict_get_update_absent "id" m H).
Qed.

Lemma chunk_document_doc_id (doc_id ttl : string) (m : dict pyval) (i : nat)
  (chunk : string) :
  dict_has "doc_id" m = false ->
  dict_get "doc_id" (chunk_document doc_id ttl m i chunk) = Some (PStr doc_id).
Proof.
  intros H. unfold chunk_document.
  now rewrite (dict_get_update_absent "doc_id" m H).
Qed.

Lemma chunk_documents_length (doc_id ttl : string) (m : dict pyval)
  (chunks : list string) :
  forall i,
    List.length (chunk_documents doc_id ttl m i chunks) = List.length chunks.
Proof. induction chunks as [|c r IH]; intros i; simpl; auto. Qed.

Lemma chunk_documents_ids (doc_id ttl : string) (m : dict pyval)
  (chunks : list string) :
  dict_has "id" m = false ->
  forall i,
    map row_id (chunk_documents doc_id ttl m i chunks)
    = map (fun j => Some (PStr (doc_id ++ "_" ++ str_of_nat j)))
        (seq i (List.length chunks)).
Proof.
  intros H. induction chunks as [|c r IH]; intros i; simpl; [reflexivity|].
  now rewrite chunk_document_id, IH.
Qed.

Lemma str_of_nat_inj (i j : nat) : str_of_nat i = str_of_nat j -> i = j.
Proof.
  unfold str_of_nat. intros H.
  apply Unsigned.to_uint_inj.
  pose proof (NilEmpty.usu (Nat.to_uint i)) as Hi.
  pose proof (NilEmpty.usu (Nat.to_uint j)) as Hj.
  rewrite H in Hi. congruence.
Qed.

Lemma app_inj_length (a b x y : string) :
  String.length a = String.length b -> a ++ x = b ++ y -> a = b /\ x = y.
Proof.
  revert b. induction a as [|c r IH]; intros [|c' r']; simpl;
    try discriminate; auto.
  intros Hl E. injection Hl as Hl. injection E as -> E.
  destruct (IH r' Hl E) as [-> ->]. auto.
Qed.

Lemma chunk_id_inj (d : string) (i j : nat) :
  Some (PStr (d ++ "_" ++ str_of_nat i)) = Some (PStr (d ++ "_" ++ str_of_nat j)) ->
  i = j.
Proof.
  intros H. injection H as H.
  apply app_inj_length in H; [|reflexivity]. destruct H as [_ H].
  injection H as H. now apply str_of_nat_inj.
Qed.

Lemma NoDup_map_inj {A B : Type} (f : A -> B) (l : list A) :
  (forall x y, f x = f y -> x = y) -> NoDup l -> NoDup (map f l).
Proof.
  intros Hf. induction 1 as [|x l Hx Hl IH]; simpl; constructor; auto.
  intros Hin. apply in_map_iff in Hin. destruct Hin as (y & E & Hy).
  apply Hf in E. now subst.
Qed.

Lemma chunk_documents_NoDup (doc_id ttl : string) (m : dict pyval)
  (chunks : list string) (i : nat) :
  dict_has "id" m = false ->
  NoDup (map row_id (chunk_documents doc_id ttl m i chunks)).
Proof.
  intros H. rewrite (chunk_documents_ids _ _ _ _ H).
  apply NoDup_map_inj; [apply chunk_id_inj | apply seq_NoDup].
Qed.

Lemma hexdigest_length (content : string) :
  String.length (MD5.hexdigest content) = 32%nat.
Proof.
  unfold MD5.hexdigest.
  destruct (MD5.digest (MD5.encode content)) as [[[a b] c] d].
  reflexivity.
Qed.

Lemma chunk_documents_nth (doc_id ttl : string) (m : dict pyval)
  (chunks : list string) :
  forall i k row,
    nth_error (chunk_documents doc_id ttl m i chunks) k = Some row ->
    exists chunk,
      nth_error chunks k = Some chunk
      /\ row = chunk_document doc_id ttl m (i + k) chunk.
Proof.
  induction chunks as [|c r IH]; intros i k row; simpl.
  - destruct k; discriminate.
  - destruct k as [|k]; simpl.
    + intros E; injection E as <-. exists c. now rewrite Nat.add_0_r.
    + intros E. destruct (IH _ _ _ E) as (chunk & Hc & ->).
      exists chunk. split; [exact Hc|]. f_equal. lia.
Qed.

Lemma chunk_documents_In (doc_id ttl : string) (m : dict pyval)
  (chunks : list string) (i : nat) (row : document) :
  In row (chunk_documents doc_id ttl m i chunks) ->
  exists j chunk, row = chunk_document doc_id ttl m j chunk.
Proof.
  intros H. apply In_nth_error in H. destruct H as [k H].
  apply chunk_documents_nth in H. destruct H as (chunk & _ & ->). eauto.
Qed.

Lemma count_doc_app (doc_id : string) (l1 l2 : list document) :
  count_doc doc_id (l1 ++ l2) = (count_doc doc_id l1 + count_doc doc_id l2)%nat.
Proof. unfold count_doc. now rewrite filter_app, List.length_app. Qed.

Lemma count_doc_zero (doc_id : string) (rows : list document) :
  count_doc doc_id rows = 0%nat <->
  (forall r, In r rows -> has_doc_id doc_id r = false).
Proof.
  unfold count_doc. induction rows as [|r rs IH]; simpl.
  - tauto.
  - destruct (has_doc_id doc_id r) eqn:E; simpl; split.
    + discriminate.
    + intros H. specialize (H r (or_introl eq_refl)). congruence.
    + intros H x [<- | Hx]; [exact E | now apply IH].
    + intros H. apply IH. auto.
Qed.

Lemma count_doc_all (doc_id : string) (rows : list document) :
  (forall r, In r rows -> has_doc_id doc_id r = true) ->
  count_doc doc_id rows = List.length rows.
Proof.
  unfold count_doc. induction rows as [|r rs IH]; simpl; [reflexivity|].
  intros H. rewrite (H r (or_introl eq_refl)). simpl. f_equal. auto.
Qed.

Lemma firstn_incl {A : Type} (n : nat) (l : list A) (x : A) :
  In x (firstn n l) -> In x l.
Proof.
  intros H. rewrite <- (firstn_skipn n l). apply in_or_app. now left.
Qed.

Lemma firstn_NoDup {A : Type} (n : nat) (l : list A) :
  NoDup l -> NoDup (firstn n l).
Proof.
  intros H. rewrite <- (firstn_skipn n l) in H.
  now apply NoDup_app_remove_r in H.
Qed.

Lemma select_rows_all_In (lim : Z) (rows : list document) (r : document) :
  In r (select_rows None lim rows) -> In r rows.
Proof. unfold select_rows. apply firstn_incl. Qed.

(** What a successful [process_text] leaves behind. *)
Lemma process_text_success (request : DocumentRequest) (w : World)
  (resp : ProcessResponse) (w' : World) :
  process_text request w = (Ok resp, w') ->
  exists m,
    metadata request = Some m
    /\ resp = success_response request
    /\ documents_store w'
       = dict_set (MD5.hexdigest (content request)) (new_entry request)
           (documents_store w)
    /\ _embeddings_indexed w' = true
    /\ (sections (embeddings w') = new_documents request m
        \/ sections (embeddings w')
           = (select_rows None 10000 (sections (embeddings w))
                ++ new_documents request m)%list).
Proof.
  destruct (metadata request) as [m|] eqn:Hm.
  - rewrite (process_text_cases request m w Hm). intros H. exists m.
    destruct (_embeddings_indexed w); simpl in H;
      destruct (hd false (faults (embeddings w)));
      destruct (hd false (tl (faults (embeddings w))));
      destruct (hd false (tl (tl (faults (embeddings w)))));
      simpl in H; try discriminate; injection H as <- <-; simpl; auto 7.
  - rewrite (process_text_no_metadata request w Hm). discriminate.
Qed.

Lemma new_documents_doc_id (request : DocumentRequest) (m : dict pyval)
  (row : document) :
  dict_has "doc_id" m = false ->
  In row (new_documents request m) ->
  dict_get "doc_id" row = Some (PStr (MD5.hexdigest (content request))).
Proof.
  intros Hm Hin. apply chunk_documents_In in Hin.
  destruct Hin as (j & chunk & ->). now apply chunk_document_doc_id.
Qed.

Lemma new_documents_count (request : DocumentRequest) (m : dict pyval) :
  dict_has "doc_id" m = false ->
  count_doc (MD5.hexdigest (content request)) (new_documents request m)
  = List.length (simple_segment (content request) 500).
Proof.
  intros Hm. rewrite count_doc_all.
  - apply chunk_documents_length.
  - intros r Hr. unfold has_doc_id.
    rewrite (new_documents_doc_id request m r Hm Hr).
    apply String.eqb_refl.
Qed.

(** C8, as the code has it: after a successful insert of a document the
    registry entry under its id, and the answer, carry the number of
    chunks [simple_segment] made of its content; this is also the number
    of rows of that document in the generation just committed when the
    index held no row of the document before and the metadata has no
    [doc_id] key of its own. *)
Theorem insert_chunk_count (request : DocumentRequest) (w : World)
  (resp : ProcessResponse) (w' : World) :
  process_text request w = (Ok resp, w') ->
  let doc_id := MD5.hexdigest (content request) in
  let n := List.length (simple_segment (content request) 500) in
  pr_chunks resp = Z.of_nat n
  /\ (exists info,
        dict_get doc_id (documents_store w') = Some info
        /\ info_chunks info = Z.of_nat n)
  /\ (forall m, metadata request = Some m ->
        dict_has "doc_id" m = false ->
        count_doc doc_id (sections (embeddings w)) = 0%nat ->
        count_doc doc_id (sections (embeddings w')) = n).
Proof.
  intros H. destruct (process_text_success _ _ _ _ H)
    as (m & Hm & -> & Hstore & _ & Hsec).
  split; [reflexivity|]. split.
  - exists (new_entry request). rewrite Hstore.
    split; [apply dict_get_set_same | reflexivity].
  - intros m' Hm' Hkey Hcount.
    assert (m' = m) by congruence; subst m'.
    destruct Hsec as [-> | ->].
    + now apply new_documents_count.
    + rewrite count_doc_app, (new_documents_count request m Hkey).
      assert (E : count_doc (MD5.hexdigest (content request))
                    (select_rows None 10000 (sections (embeddings w))) = 0%nat).
      { apply count_doc_zero. intros r Hr.
        apply select_rows_all_In in Hr.
        revert r Hr. now apply count_doc_zero. }
      now rewrite E.
Qed.

Lemma insert_chunk_count_witness :
  let w := indexed_animals half [] in
  let w' := snd (process_text plants w) in
  count_doc (MD5.hexdigest (content plants)) (sections (embeddings w'))
  = List.length (simple_segment (content plants) 500).
Proof.
  intros w w'.
  assert (H : process_text plants w = (Ok (success_response plants), w'))
    by (vm_compute; reflexivity).
  destruct (insert_chunk_count plants w _ w' H) as (_ & _ & Hc).
  apply (Hc []); vm_compute; reflexivity.
Defined.

(** C8 as stated fails: the same content inserted twice; the second
    insert succeeds, the registry says one chunk, the committed
    generation holds two rows of the document. *)
Lemma reinsert_chunk_count :
  let w := indexed_animals half [] in
  let w' := snd (process_text animals w) in
  fst (process_text animals w) = Ok (success_response animals)
  /\ option_map info_chunks (dict_get animals_id (documents_store w'))
     = Some 1
  /\ List.length (simple_segment (content animals) 500) = 1%nat
  /\ count_doc animals_id (sections (embeddings w')) = 2%nat.
Proof. vm_compute. repeat split. Qed.

Lemma new_documents_chunk_rows (request : DocumentRequest) (m : dict pyval) :
  dict_has "id" m = false ->
  dict_has "doc_id" m = false ->
  Forall chunk_row (new_documents request m).
Proof.
  intros Hid Hdoc. apply Forall_forall. intros row Hin.
  apply chunk_documents_In in Hin. destruct Hin as (j & chunk & ->).
  exists (MD5.hexdigest (content request)), j.
  split; [apply hexdigest_length|].
  split; [now apply chunk_document_id | now apply chunk_document_doc_id].
Qed.

(** Rows of other documents share no id with the rows of [doc_id]. *)
Lemma other_document_ids (doc_id : string) (row : document) (j : nat) :
  String.length doc_id = 32%nat ->
  chunk_row row ->
  has_doc_id doc_id row = false ->
  row_id row <> Some (PStr (doc_id ++ "_" ++ str_of_nat j)).
Proof.
  intros Hlen (d & i & Hd & Hid & Hdoc) Hother E.
  unfold row_id in E. rewrite Hid in E. injection E as E.
  apply app_inj_length in E; [|congruence]. destruct E as [-> _].
  unfold has_doc_id in Hother. rewrite Hdoc, String.eqb_refl in Hother.
  discriminate.
Qed.

Lemma generation_wf_append (request : DocumentRequest) (m : dict pyval)
  (rows : list document) :
  dict_has "id" m = false ->
  dict_has "doc_id" m = false ->
  generation_wf rows ->
  count_doc (MD5.hexdigest (content request)) rows = 0%nat ->
  generation_wf (rows ++ new_documents request m).
Proof.
  intros Hid Hdoc [Hnd Hrows] Hcount. split.
  - rewrite map_app. apply NoDup_app; auto.
    + now apply chunk_documents_NoDup.
    + intros a Ha Hb.
      apply in_map_iff in Ha. destruct Ha as (r & <- & Hr).
      unfold new_documents in Hb.
      rewrite (chunk_documents_ids _ _ _ _ Hid) in Hb.
      apply in_map_iff in Hb. destruct Hb as (j & Hj & _).
      symmetry in Hj. revert Hj. apply other_document_ids.
      * apply hexdigest_length.
      * rewrite Forall_forall in Hrows. auto.
      * revert r Hr. now apply count_doc_zero.
  - apply Forall_app. split; [exact Hrows|].
    now apply new_documents_chunk_rows.
Qed.

Lemma generation_wf_select (rows : list document) :
  generation_wf rows -> generation_wf (select_rows None 10000 rows).
Proof.
  intros [Hnd Hrows]. unfold select_rows. split.
  - rewrite <- firstn_map. now apply firstn_NoDup.
  - apply Forall_forall. intros r Hr. apply firstn_incl in Hr.
    rewrite Forall_forall in Hrows. auto.
Qed.

Lemma NoDup_app_common {A : Type} (a : A) (l1 l2 : list A) :
  In a l1 -> In a l2 -> ~ NoDup (l1 ++ l2).
Proof.
  intros H1 H2 Hnd. induction l1 as [|x r IH]; [destruct H1|].
  simpl in Hnd. inversion Hnd as [|y l Hx Hr]; subst.
  destruct H1 as [-> | H1]; [|now apply IH].
  apply Hx. apply in_or_app. now right.
Qed.

(** C9, as the code has it: for a request whose metadata has no [id]
    key, the rows built for its chunks are as many as the chunks, row
    [i] has the id [doc_id_i], and these ids are pairwise different; a
    successful insert of a document that has no row in the index yet
    (and whose metadata has no [doc_id] key) keeps the committed
    generation one of chunk rows with pairwise different ids; and an
    insert on the append path (state Indexed, read-back and commit going
    through) when the rows read back hold a chunk id [doc_id_i] of the
    same document succeeds and commits that id twice. *)
Theorem insert_chunk_ids (request : DocumentRequest) (m : dict pyval)
  (w : World) :
  metadata request = Some m ->
  dict_has "id" m = false ->
  let doc_id := MD5.hexdigest (content request) in
  let docs := new_documents request m in
  List.length docs = List.length (simple_segment (content request) 500)
  /\ (forall i row, nth_error docs i = Some row ->
        row_id row = Some (PStr (doc_id ++ "_" ++ str_of_nat i)))
  /\ NoDup (map row_id docs)
  /\ (forall resp w',
        process_text request w = (Ok resp, w') ->
        dict_has "doc_id" m = false ->
        generation_wf (sections (embeddings w)) ->
        count_doc doc_id (sections (embeddings w)) = 0%nat ->
        generation_wf (sections (embeddings w')))
  /\ (forall i row,
        _embeddings_indexed w = true ->
        hd false (faults (embeddings w)) = false ->
        hd false (tl (faults (embeddings w))) = false ->
        In row (select_rows None 10000 (sections (embeddings w))) ->
        (i < List.length (simple_segment (content request) 500))%nat ->
        row_id row = Some (PStr (doc_id ++ "_" ++ str_of_nat i)) ->
        fst (process_text request w) = Ok (success_response request)
        /\ ~ NoDup (map row_id
                      (sections (embeddings (snd (process_text request w)))))).
Proof.
  intros Hm Hid. split; [apply chunk_documents_length|].
  split; [|split; [|split]].
  - intros i row Hrow. apply chunk_documents_nth in Hrow.
    destruct Hrow as (chunk & _ & ->). now apply chunk_document_id.
  - now apply chunk_documents_NoDup.
  - intros resp w' H Hdoc Hwf Hcount.
    destruct (process_text_success _ _ _ _ H) as (m' & Hm' & _ & _ & _ & Hsec).
    assert (m' = m) by congruence; subst m'.
    destruct Hsec as [-> | ->].
    + apply (generation_wf_append request m [] Hid Hdoc);
        [split; constructor | reflexivity].
    + apply generation_wf_append; auto.
      * now apply generation_wf_select.
      * apply count_doc_zero. intros r Hr. apply select_rows_all_In in Hr.
        revert r Hr. now apply count_doc_zero.
  - intros i row Hidx Hf1 Hf2 Hrow Hi Hrid.
    pose proof (process_text_cases request m w Hm) as E.
    cbv zeta in E. rewrite Hidx, Hf1, Hf2 in E. simpl in E. rewrite E.
    cbn [fst snd sections embeddings]. split; [reflexivity|].
    rewrite map_app.
    apply (NoDup_app_common (row_id row)); [now apply in_map|].
    unfold new_documents. rewrite (chunk_documents_ids _ _ _ _ Hid), Hrid.
    apply in_map_iff. exists i. split; [reflexivity|].
    apply in_seq. lia.
Qed.

Lemma insert_chunk_ids_witness :
  let w := indexed_animals half [] in
  let w' := snd (process_text plants w) in
  map row_id (new_documents plants [])
  = [Some (PStr (MD5.hexdigest (content plants) ++ "_0"))]
  /\ generation_wf (sections (embeddings w')).
Proof.
  intros w w'.
  destruct (insert_chunk_ids plants [] w eq_refl eq_refl)
    as (_ & Hnth & _ & Hgen & _).
  split.
  - assert (E : new_documents plants []
                = [chunk_document (MD5.hexdigest (content plants))
                     "plants" [] 0 "Ferns are plants."])
      by (vm_compute; reflexivity).
    rewrite E in Hnth |- *. cbv [map].
    rewrite (Hnth 0%nat _ eq_refl). reflexivity.
  - apply (Hgen (success_response plants) w').
    + vm_compute; reflexivity.
    + reflexivity.
    + split.
      * vm_compute. constructor; [intros [] | constructor].
      * constructor; [|constructor].
        exists animals_id, 0%nat. vm_compute. auto.
    + vm_compute; reflexivity.
Defined.

(** C9 as stated fails: the same content inserted twice; the second
    insert appends the same ids after the committed ones, and the
    generation holds the id [doc_id_0] twice. *)
Lemma reinsert_duplicate_ids :
  let w := indexed_animals half [] in
  let w' := snd (process_text animals w) in
  fst (process_text animals w) = Ok (success_response animals)
  /\ map row_id (sections (embeddings w'))
     = [Some (PStr (animals_id ++ "_0")); Some (PStr (animals_id ++ "_0"))]
  /\ ~ NoDup (map row_id (sections (embeddings w'))).
Proof.
  vm_compute. repeat split.
  intros H. inversion H as [|x l Hx _]. apply Hx. left. reflexivity.
Qed.

(** A metadata key [id] replaces the id of every chunk. *)
Lemma metadata_overrides_id :
  map row_id
    (new_documents
       {| content := "One. Two."; title := "t";
          metadata := Some [("id", PStr "mine")] |}
       [("id", PStr "mine")])
  = [Some (PStr "mine")].
Proof. vm_compute. reflexivity. Qed.

(** ** [search] in state Indexed *)

Lemma SFcompare_swap (x y : float) :
  SFcompare y x = option_map CompOpp (SFcompare x y).
Proof.
  destruct x as [sx | sx | | sx mx ex], y as [sy | sy | | sy my ey];
    try destruct sx; try destruct sy; simpl; try reflexivity;
    rewrite (Z.compare_antisym ex ey); destruct (ex ?= ey); simpl;
    try reflexivity;
    rewrite (Pos.compare_cont_antisym mx my Eq); reflexivity.
Qed.

(** A score that passes the threshold is not below it. *)
Lemma SFleb_not_SFltb (t s : float) : SFleb t s = true -> SFltb s t = false.
Proof.
  unfold SFleb, SFltb. rewrite (SFcompare_swap t s).
  destruct (SFcompare t s) as [[]|]; simpl; congruence.
Qed.

Lemma find_owner_text (h : string) (items : dict doc_info) :
  exists o, find_owner (PStr h) items = Ok o.
Proof.
  induction items as [|[k v] r IH]; simpl; [eauto|].
  destruct (str_contains k h); eauto.
Qed.

Lemma format_result_ok (store : dict doc_info) (r : hit) :
  id_is_text r = true -> exists f, format_result store r = Ok f.
Proof.
  unfold id_is_text, format_result, dict_get_default. intros H.
  destruct (negb _ && dict_has "text" (hit_fields r)); [|eauto].
  destruct (dict_get "id" (hit_fields r)) as [[] |]; try discriminate.
  - destruct (find_owner_text s store) as [[d|] ->]; eauto.
  - destruct (find_owner_text "" store) as [[d|] ->]; eauto.
Qed.

Lemma format_result_score (store : dict doc_info) (r : hit) (f : scored_chunk) :
  format_result store r = Ok f -> sc_score f = hit_score r.
Proof.
  unfold format_result.
  destruct (negb _ && dict_has "text" (hit_fields r)).
  - destruct (find_owner _ store) as [[d|]|]; intros E;
      try discriminate; injection E as <-; reflexivity.
  - intros E; injection E as <-; reflexivity.
Qed.

(** The loop of [search]: the results that pass the threshold, each one
    formatted, in the order of the index. *)
Lemma format_results_filter (store : dict doc_info) (t : float)
  (raw : list hit) :
  forallb id_is_text (filter (passes t) raw) = true ->
  exists formatted,
    format_results store t raw = Ok formatted
    /\ Forall2 (fun r f => format_result store r = Ok f)
         (filter (passes t) raw) formatted.
Proof.
  induction raw as [|r rest IH]; simpl; [eauto|].
  destruct (passes t r) eqn:Hp; simpl; [|exact IH].
  intros H. apply andb_prop in H. destruct H as [Hr Hrest].
  destruct (format_result_ok store r Hr) as [f Hf].
  destruct (IH Hrest) as (fs & Hfs & Hall).
  exists (f :: fs). rewrite Hf, Hfs. auto.
Qed.

Lemma Forall2_scores (store : dict doc_info) (kept : list hit)
  (formatted : list scored_chunk) :
  Forall2 (fun r f => format_result store r = Ok f) kept formatted ->
  map sc_score formatted = map hit_score kept.
Proof.
  induction 1 as [|r f rs fs Hf _ IH]; simpl; [reflexivity|].
  now rewrite IH, (format_result_score store r f Hf).
Qed.

Lemma filter_all {A : Type} (p : A -> bool) (l : list A) :
  Forall (fun x => p x = true) l -> filter p l = l.
Proof.
  induction 1 as [|x l Hx _ IH]; simpl; [reflexivity|].
  now rewrite Hx, IH.
Qed.

(** C7, as the code has it: in state Indexed, when the call to the index
    returns, the result list is the raw results whose score is at least
    the threshold, each formatted, in the order of the index (ids being
    strings or missing); no returned score is below the threshold; and
    when every raw score is at least the threshold, as with threshold 0
    and scores that are not negative, every raw result is kept. *)
Theorem search_threshold_filter (request : SearchRequest) (w : World) :
  _embeddings_indexed w = true ->
  hd false (faults (embeddings w)) = false ->
  let raw :=
    ranker (embeddings w) (query request) (limit request)
      (sections (embeddings w)) in
  let kept := filter (passes (threshold request)) raw in
  forallb id_is_text kept = true ->
  exists formatted,
    fst (search request w)
    = Ok {| sr_results := formatted;
            sr_message := None;
            sr_query := Some (query request) |}
    /\ Forall2 (fun r f => format_result (documents_store w) r = Ok f)
         kept formatted
    /\ map sc_score formatted = map hit_score kept
    /\ Forall (fun f => SFltb (sc_score f) (threshold request) = false)
         formatted
    /\ (Forall (fun r => SFleb (threshold request) (hit_score r) = true) raw ->
          kept = raw).
Proof.
  intros Hidx Hf raw kept Hids. subst kept.
  destruct (format_results_filter (documents_store w) (threshold request)
              raw Hids) as (formatted & Hfmt & Hall).
  exists formatted. split; [|split; [exact Hall | split; [|split]]].
  - unfold_py. step_with Hidx. step_with Hf.
    fold raw. rewrite Hfmt. reflexivity.
  - now apply (Forall2_scores (documents_store w)).
  - apply Forall_forall. intros f Hin.
    assert (Hs : In (sc_score f)
                   (map hit_score (filter (passes (threshold request)) raw))).
    { rewrite <- (Forall2_scores _ _ _ Hall). now apply in_map. }
    apply in_map_iff in Hs. destruct Hs as (r & <- & Hr).
    apply filter_In in Hr. destruct Hr as [_ Hr].
    now apply SFleb_not_SFltb.
  - intros Hraw. now apply filter_all.
Qed.

Lemma search_threshold_filter_witness :
  exists formatted,
    fst (search (mammals (S754_zero false)) (indexed_animals half []))
    = Ok {| sr_results := formatted;
            sr_message := None;
            sr_query := Some "mammals" |}
    /\ map sc_score formatted = [half].
Proof.
  destruct (search_threshold_filter (mammals (S754_zero false))
              (indexed_animals half []) eq_refl eq_refl)
    as (formatted & Hres & _ & Hscores & _).
  - vm_compute. reflexivity.
  - exists formatted. split; [exact Hres|].
    rewrite Hscores. vm_compute. reflexivity.
Defined.

(** C7 as stated fails: the index returns one result, of score -0.5; with
    threshold 0 it is dropped. *)
Lemma search_threshold_zero_drops :
  let w := indexed_animals minus_half [] in
  map hit_score
    (ranker (embeddings w) "mammals" 5 (sections (embeddings w)))
  = [minus_half]
  /\ fst (search (mammals (S754_zero false)) w)
     = Ok {| sr_results := [];
             sr_message := None;
             sr_query := Some "mammals" |}.
Proof. vm_compute. split; reflexivity. Qed.

(** * Further properties *)

(** ** Segmentation: coverage and bounds *)

Lemma buffer_of_snoc (g : list string) (s : string) :
  buffer_of (g ++ [s]) = buffer_of g ++ s ++ " ".
Proof.
  induction g as [|a r IH]; simpl.
  - reflexivity.
  - rewrite IH. clear. induction a as [|c a IHa]; simpl; [reflexivity|].
    now rewrite IHa.
Qed.

Lemma truthy_buffer_of (g : list string) :
  truthy (buffer_of g) = match g with [] => false | _ => true end.
Proof. destruct g as [|[|c a] r]; reflexivity. Qed.

Lemma flush_buffer_of (g : list string) :
  flush (buffer_of g) = map (fun g => strip (buffer_of g)) (emit g).
Proof.
  unfold flush. rewrite truthy_buffer_of. destruct g; reflexivity.
Qed.

Lemma accumulate_groups (maxLength : Z) (sentences : list string) :
  forall cur,
    accumulate maxLength (buffer_of cur) sentences
    = map (fun g => strip (buffer_of g))
        (group_sentences maxLength cur sentences).
Proof.
  induction sentences as [|s rest IH]; intros cur; simpl.
  - apply flush_buffer_of.
  - destruct (maxLength <=? len (buffer_of cur) + len s).
    + rewrite map_app, <- flush_buffer_of. f_equal.
      apply (IH [s]).
    + rewrite <- buffer_of_snoc. apply IH.
Qed.

Lemma group_sentences_concat (maxLength : Z) (sentences : list string) :
  forall cur,
    List.concat (group_sentences maxLength cur sentences)
    = (cur ++ sentences)%list.
Proof.
  assert (He : forall cur, List.concat (emit cur) = cur).
  { intros [|a r]; simpl; [reflexivity | now rewrite app_nil_r]. }
  induction sentences as [|s rest IH]; intros cur; simpl.
  - rewrite He. now rewrite app_nil_r.
  - destruct (maxLength <=? len (buffer_of cur) + len s).
    + rewrite concat_app, He, (IH [s]). reflexivity.
    + rewrite IH, <- app_assoc. reflexivity.
Qed.

Lemma group_sentences_nonempty (maxLength : Z) (sentences : list string) :
  forall cur,
    Forall (fun g => g <> []) (group_sentences maxLength cur sentences).
Proof.
  assert (He : forall cur, Forall (fun g : list string => g <> []) (emit cur)).
  { intros [|a r]; simpl; constructor; [discriminate | constructor]. }
  induction sentences as [|s rest IH]; intros cur; simpl.
  - apply He.
  - destruct (maxLength <=? len (buffer_of cur) + len s).
    + apply Forall_app. split; [apply He | apply IH].
    + apply IH.
Qed.

(** X1: the chunks are the sentences, in order, cut into consecutive
    non-empty groups: every chunk is the trimmed buffer of one group, and
    the groups put end to end are the sentence list, so no sentence is
    dropped, repeated or moved. *)
Theorem simple_segment_covers (text : string) (max_length : Z) :
  exists groups,
    List.concat groups = re_split_sentences text
    /\ Forall (fun g => g <> []) groups
    /\ simple_segment text max_length
       = map (fun g => strip (buffer_of g)) groups.
Proof.
  exists (group_sentences max_length [] (re_split_sentences text)).
  split; [apply (group_sentences_concat max_length _ [])|].
  split; [apply group_sentences_nonempty|].
  rewrite simple_segment_accumulate.
  apply (accumulate_groups max_length _ []).
Qed.

Lemma len_lstrip_le (s : string) : len (lstrip s) <= len s.
Proof.
  unfold len. induction s as [|c r IH]; simpl; [lia|].
  destruct (isspace c); simpl String.length; lia.
Qed.

Lemma len_rstrip_le (s : string) : len (rstrip s) <= len s.
Proof.
  unfold len. induction s as [|c r IH]; simpl; [lia|].
  destruct (rstrip r) as [|a t]; [destruct (isspace c)|];
    simpl String.length in *; lia.
Qed.

Lemma len_strip_le (s : string) : len (strip s) <= len s.
Proof.
  unfold strip. pose proof (len_rstrip_le (lstrip s)).
  pose proof (len_lstrip_le s). lia.
Qed.

Lemma append_assoc (a b c : string) : (a ++ b) ++ c = a ++ b ++ c.
Proof. induction a as [|x a IH]; simpl; [reflexivity | now rewrite IH]. Qed.

(** The groups the loop closes hold one sentence, or fit in [maxLength]
    with their spaces. *)
Lemma group_sentences_bound (maxLength : Z) (sentences : list string) :
  forall cur,
    (List.length cur <= 1)%nat \/ len (buffer_of cur) <= maxLength ->
    Forall (fun g => (List.length g <= 1)%nat
                     \/ len (buffer_of g) <= maxLength)
      (group_sentences maxLength cur sentences).
Proof.
  assert (He : forall cur,
             (List.length cur <= 1)%nat \/ len (buffer_of cur) <= maxLength ->
             Forall (fun g => (List.length g <= 1)%nat
                              \/ len (buffer_of g) <= maxLength) (emit cur)).
  { intros [|a r] H; simpl; constructor; [exact H | constructor]. }
  induction sentences as [|s rest IH]; intros cur Hcur; simpl.
  - now apply He.
  - destruct (Z.leb_spec maxLength (len (buffer_of cur) + len s)).
    + apply Forall_app. split; [now apply He|].
      apply IH. left. simpl. lia.
    + apply IH. right. rewrite buffer_of_snoc, !len_app.
      change (len " ") with 1. lia.
Qed.

Lemma strip_buffer_bound (g : list string) (maxLength : Z) :
  g <> [] -> len (buffer_of g) <= maxLength ->
  len (strip (buffer_of g)) < maxLength.
Proof.
  intros Hg Hlen. destruct (exists_last Hg) as (g' & s & ->).
  rewrite buffer_of_snoc in *. rewrite <- append_assoc in *.
  rewrite strip_app_space. rewrite len_app in Hlen.
  change (len " ") with 1 in Hlen.
  pose proof (len_strip_le (buffer_of g' ++ s)). lia.
Qed.

(** X2: [max_length] is exceeded by single sentences only: every chunk
    is shorter than [max_length], or is one sentence of the text,
    trimmed. *)
Theorem simple_segment_soft_bound (text : string) (max_length : Z)
  (c : string) :
  In c (simple_segment text max_length) ->
  len c < max_length
  \/ exists s, In s (re_split_sentences text) /\ c = strip s.
Proof.
  rewrite simple_segment_accumulate, (accumulate_groups max_length _ []).
  intros Hin. apply in_map_iff in Hin. destruct Hin as (g & <- & Hg).
  pose proof (group_sentences_bound max_length (re_split_sentences text) []
                (or_introl (Nat.le_0_l 1))) as Hb.
  pose proof (group_sentences_nonempty max_length (re_split_sentences text) [])
    as Hne.
  rewrite Forall_forall in Hb, Hne.
  destruct (Hb g Hg) as [Hone | Hfit].
  - right. destruct g as [|s [|s' r]]; simpl in Hone; try lia.
    + now destruct (Hne [] Hg).
    + exists s. split.
      * pose proof (group_sentences_concat max_length
                      (re_split_sentences text) []) as Hc.
        simpl in Hc. rewrite <- Hc.
        apply in_concat. exists [s]. split; [exact Hg | now left].
      * simpl. apply strip_app_space.
  - left. apply strip_buffer_bound; auto.
Qed.

Lemma simple_segment_soft_bound_witness :
  len "Cats are mammals." < 20
  \/ exists s,
      In s (re_split_sentences "Cats are mammals. Dogs are mammals too.")
      /\ "Cats are mammals." = strip s.
Proof.
  apply (simple_segment_soft_bound
           "Cats are mammals. Dogs are mammals too." 20).
  vm_compute. left; reflexivity.
Defined.

Lemma buffer_of_app (a b : list string) :
  buffer_of (a ++ b) = buffer_of a ++ buffer_of b.
Proof.
  induction a as [|s r IH]; simpl; [reflexivity|].
  rewrite IH, !append_assoc. reflexivity.
Qed.

Lemma accumulate_fits (maxLength : Z) (sentences : list string) :
  forall cur,
    len (buffer_of (cur ++ sentences)) <= maxLength ->
    accumulate maxLength (buffer_of cur) sentences
    = flush (buffer_of (cur ++ sentences)).
Proof.
  induction sentences as [|s rest IH]; intros cur Hlen; simpl.
  - now rewrite app_nil_r.
  - assert (E : (cur ++ s :: rest = (cur ++ [s]) ++ rest)%list)
      by now rewrite <- app_assoc.
    rewrite E in Hlen |- *.
    pose proof Hlen as Hlen'.
    rewrite buffer_of_app, buffer_of_snoc, !len_app in Hlen'.
    change (len " ") with 1 in Hlen'.
    pose proof (len_nonneg (buffer_of rest)).
    destruct (Z.leb_spec maxLength (len (buffer_of cur) + len s)); [lia|].
    rewrite <- buffer_of_snoc. now apply IH.
Qed.

(** The sentences with one space after each take at most one character
    more than the text. *)
Lemma sentence_split_buffer_len (text : string) (pieces : list string) :
  sentence_split text pieces -> len (buffer_of pieces) <= len text + 1.
Proof.
  induction 1 as [p Hp | p sep rest ps Hp Ht Hne Hsp Hr Hs IH]; simpl.
  - rewrite len_app. change (len " ") with 1. lia.
  - rewrite !len_app. change (len (String " " (buffer_of ps)))
      with (len (" " ++ buffer_of ps)). rewrite len_app.
    change (len " ") with 1.
    assert (1 <= len sep).
    { destruct sep; [congruence|]. unfold len. simpl String.length. lia. }
    lia.
Qed.

(** X3: a text shorter than [max_length] comes back as exactly one
    chunk: its sentences, one space after each, trimmed. *)
Theorem simple_segment_short_text (text : string) (max_length : Z) :
  len text < max_length ->
  simple_segment text max_length
  = [strip (buffer_of (re_split_sentences text))].
Proof.
  intros Hlen. rewrite simple_segment_accumulate.
  pose proof (sentence_split_buffer_len _ _ (re_split_sentences_split text)).
  pose proof (accumulate_fits max_length (re_split_sentences text) [])
    as Hfit.
  simpl in Hfit. rewrite Hfit by lia.
  unfold flush. rewrite truthy_buffer_of.
  pose proof (re_split_go_nonempty InText text) as Hne.
  unfold re_split_sentences.
  destruct (re_split_go InText text); [congruence | reflexivity].
Qed.

Lemma simple_segment_short_text_witness :
  simple_segment "One.  Two!" 500 = ["One. Two!"].
Proof.
  rewrite (simple_segment_short_text "One.  Two!" 500).
  - vm_compute. reflexivity.
  - vm_compute. reflexivity.
Defined.

Lemma accumulate_no_room (maxLength : Z) (sentences : list string) :
  maxLength <= 0 ->
  forall buffer,
    accumulate maxLength buffer sentences
    = (flush buffer ++ map strip sentences)%list.
Proof.
  intros Hmax. induction sentences as [|s rest IH]; intros buffer; simpl.
  - now rewrite app_nil_r.
  - pose proof (len_nonneg buffer). pose proof (len_nonneg s).
    destruct (Z.leb_spec maxLength (len buffer + len s)); [|lia].
    rewrite IH. unfold flush at 2.
    now rewrite truthy_app_space, strip_app_space.
Qed.

(** X4: with [max_length] zero or negative nothing is ever put
    together: the chunks are the sentences of the text, one by one,
    trimmed. *)
Theorem simple_segment_no_room (text : string) (max_length : Z) :
  max_length <= 0 ->
  simple_segment text max_length = map strip (re_split_sentences text).
Proof.
  intros Hmax. rewrite simple_segment_accumulate.
  now rewrite (accumulate_no_room max_length _ Hmax).
Qed.

Lemma simple_segment_no_room_witness :
  simple_segment "One. Two! Three" 0 = ["One."; "Two!"; "Three"].
Proof.
  rewrite (simple_segment_no_room "One. Two! Three" 0).
  - vm_compute. reflexivity.
  - lia.
Defined.

Lemma all_space_app (a b : string) :
  all_space (a ++ b) = all_space a && all_space b.
Proof.
  induction a as [|c r IH]; simpl; [reflexivity|].
  now rewrite IH, andb_assoc.
Qed.

Lemma rstrip_empty (s : string) :
  rstrip s = EmptyString -> all_space s = true.
Proof.
  induction s as [|c r IH]; simpl; [reflexivity|].
  destruct (rstrip r); [|discriminate].
  destruct (isspace c); [|discriminate]. intros _. now apply IH.
Qed.

Lemma all_space_lstrip (s : string) :
  all_space (lstrip s) = true -> all_space s = true.
Proof.
  induction s as [|c r IH]; simpl; [reflexivity|].
  destruct (isspace c) eqn:E; simpl; [exact IH | now rewrite E].
Qed.

Lemma strip_empty (s : string) : strip s = EmptyString -> all_space s = true.
Proof. intros H. now apply all_space_lstrip, rstrip_empty. Qed.

Lemma ends_with_terminal_not_blank (p : string) :
  ends_with_terminal p = true -> all_space p = false.
Proof.
  induction p as [|c r IH]; simpl; [discriminate|].
  destruct r as [|a r'].
  - intros Ht. destruct (isspace c) eqn:E; [|reflexivity].
    rewrite (isspace_not_terminal c E) in Ht. discriminate.
  - intros Ht. rewrite (IH Ht). apply andb_false_r.
Qed.

Lemma ends_with_space_blank (s : string) :
  s <> EmptyString -> all_space s = true -> ends_with_space s = true.
Proof.
  induction s as [|c r IH]; [congruence|]. intros _ H.
  simpl in H. apply andb_prop in H. destruct H as [Hc Hr].
  destruct r as [|a r']; [exact Hc|].
  change (ends_with_space (String c (String a r')))
    with (ends_with_space (String a r')).
  apply IH; [discriminate | exact Hr].
Qed.

Lemma ends_with_space_app (a t : string) :
  t <> EmptyString -> ends_with_space (a ++ t) = ends_with_space t.
Proof.
  intros Ht. induction a as [|c r IH]; simpl; [reflexivity|].
  destruct (r ++ t) eqn:E; [|exact IH].
  destruct r; simpl in E; [congruence | discriminate].
Qed.

(** In a text that does not end with whitespace no sentence is blank. *)
Lemma sentence_split_not_blank (text : string) (pieces : list string) :
  sentence_split text pieces ->
  text <> EmptyString -> ends_with_space text = false ->
  Forall (fun p => all_space p = false) pieces.
Proof.
  induction 1 as [p Hp | p sep rest ps Hp Ht Hne Hsp Hr Hs IH];
    intros Hnonempty Hend.
  - constructor; [|constructor].
    destruct (all_space p) eqn:E; [|reflexivity].
    rewrite (ends_with_space_blank p Hnonempty E) in Hend. discriminate.
  - constructor; [now apply ends_with_terminal_not_blank|].
    assert (Hrest : rest <> EmptyString).
    { intros ->. rewrite ends_with_space_app in Hend.
      - change (sep ++ "") with (sep ++ EmptyString) in Hend.
        assert (E : sep ++ EmptyString = sep)
          by (clear; induction sep; simpl; congruence).
        rewrite E, (ends_with_space_blank sep Hne Hsp) in Hend. discriminate.
      - destruct sep; [congruence | discriminate]. }
    apply IH; [exact Hrest|].
    rewrite <- append_assoc, ends_with_space_app in Hend; auto.
Qed.

Lemma buffer_of_not_blank (g : list string) :
  g <> [] -> Forall (fun p => all_space p = false) g ->
  all_space (buffer_of g) = false.
Proof.
  destruct g as [|s r]; [congruence|]. intros _ H.
  inversion H as [|x l Hs Hr]; subst. simpl.
  now rewrite all_space_app, Hs.
Qed.

(** X7: for a non-empty text that does not end with whitespace no chunk
    is the empty string. *)
Theorem simple_segment_no_empty_chunk (text : string) (max_length : Z)
  (c : string) :
  text <> EmptyString -> ends_with_space text = false ->
  In c (simple_segment text max_length) -> c <> EmptyString.
Proof.
  intros Hne Hend.
  pose proof (sentence_split_not_blank _ _ (re_split_sentences_split text)
                Hne Hend) as Hpieces.
  rewrite simple_segment_accumulate, (accumulate_groups max_length _ []).
  intros Hin. apply in_map_iff in Hin. destruct Hin as (g & <- & Hg).
  intros Hempty. apply strip_empty in Hempty.
  rewrite buffer_of_not_blank in Hempty; [discriminate | |].
  - pose proof (group_sentences_nonempty max_length
                  (re_split_sentences text) []) as Hn.
    rewrite Forall_forall in Hn. now apply Hn.
  - apply Forall_forall. intros s Hs.
    rewrite Forall_forall in Hpieces. apply Hpieces.
    pose proof (group_sentences_concat max_length
                  (re_split_sentences text) []) as Hc.
    simpl in Hc. rewrite <- Hc. apply in_concat. eauto.
Qed.

Lemma simple_segment_no_empty_chunk_witness : "a." <> EmptyString.
Proof.
  apply (simple_segment_no_empty_chunk " a. b" 2 "a.").
  - discriminate.
  - reflexivity.
  - vm_compute. left; reflexivity.
Defined.

(** ** Test vectors of the other handlers *)

Example int_true_div_examples :
  int_true_div 38 2 = S754_finite false 5348024557502464 (-48)
  /\ int_true_div 10 3 = S754_finite false 7505999378950827 (-51)
  /\ file_kind_of "Report.PDF" = Pdf
  /\ file_kind_of "notes.md" = Markdown
  /\ file_kind_of "a.pdf.txt" = PlainText
  /\ file_kind_of "pdf" = PlainText.
Proof. vm_compute. repeat split. Qed.

(** ** [delete_document], every path *)

(** Every way the deletion of a registered id can go. *)
Lemma delete_document_cases (doc_id : string) (w : World) :
  dict_has doc_id (documents_store w) = true ->
  let e := embeddings w in
  let mk := fun idx secs fl cs =>
    {| documents_store := dict_del doc_id (documents_store w);
       _embeddings_indexed := idx;
       embeddings := {| sections := secs; faults := fl;
                        ranker := ranker e; calls := cs |} |} in
  let f1 := hd false (faults e) in
  let f2 := hd false (tl (faults e)) in
  let remaining := select_rows (Some doc_id) 10000 (sections e) in
  let deleted :=
    Ok {| dr_message := "Document deleted"; dr_doc_id := doc_id |} in
  delete_document doc_id w =
  if negb (_embeddings_indexed w) then
    (deleted, mk false (sections e) (faults e) (calls e))
  else if f1 then
    (deleted,
     mk false (sections e) (tl (faults e))
        (CallSelect (Some doc_id) 10000 :: calls e))
  else if f2 then
    (deleted,
     mk false (sections e) (tl (tl (faults e)))
        (CallIndex remaining :: CallSelect (Some doc_id) 10000 :: calls e))
  else
    (deleted,
     mk true remaining (tl (tl (faults e)))
        (CallIndex remaining :: CallSelect (Some doc_id) 10000 :: calls e)).
Proof.
  intros Hin. unfold_py. step_with Hin.
  destruct (_embeddings_indexed w); simpl.
  - destruct (faults (embeddings w)) as [|[] [|[] r]]; reflexivity.
  - destruct (embeddings w); reflexivity.
Qed.

(** X5: deleting a registered id never fails, whatever the index does:
    the answer is the deleted message and the registry entry is removed;
    the flag stays Indexed only when both the read-back and the commit
    went through, and only then is the committed generation replaced, by
    the rows read back. *)
Theorem delete_never_fails (doc_id : string) (w : World) :
  dict_has doc_id (documents_store w) = true ->
  let w' := snd (delete_document doc_id w) in
  let rebuilt :=
    _embeddings_indexed w
    && negb (hd false (faults (embeddings w)))
    && negb (hd false (tl (faults (embeddings w)))) in
  fst (delete_document doc_id w)
  = Ok {| dr_message := "Document deleted"; dr_doc_id := doc_id |}
  /\ documents_store w' = dict_del doc_id (documents_store w)
  /\ _embeddings_indexed w' = rebuilt
  /\ sections (embeddings w')
     = if rebuilt then select_rows (Some doc_id) 10000 (sections (embeddings w))
       else sections (embeddings w).
Proof.
  intros Hin. rewrite (delete_document_cases doc_id w Hin).
  destruct (_embeddings_indexed w); simpl;
    destruct (hd false (faults (embeddings w)));
    destruct (hd false (tl (faults (embeddings w)))); simpl; auto.
Qed.

Lemma delete_never_fails_witness :
  let w := indexed_animals half [false; true] in
  fst (delete_document animals_id w)
  = Ok {| dr_message := "Document deleted"; dr_doc_id := animals_id |}
  /\ _embeddings_indexed (snd (delete_document animals_id w)) = false
  /\ List.length (sections (embeddings (snd (delete_document animals_id w))))
     = 1%nat.
Proof.
  intros w.
  destruct (delete_never_fails animals_id w) as (Hr & _ & Hi & Hs).
  - vm_compute. reflexivity.
  - split; [exact Hr|]. split.
    + rewrite Hi. vm_compute. reflexivity.
    + rewrite Hs. vm_compute. reflexivity.
Defined.

Lemma has_doc_id_differs (doc_id : string) (row : document) :
  has_doc_id doc_id row = true -> doc_id_differs doc_id row = false.
Proof.
  unfold has_doc_id, doc_id_differs.
  destruct (dict_get "doc_id" row) as [[]|]; try discriminate.
  now intros ->.
Qed.

Lemma has_doc_id_other (d doc_id : string) (row : document) :
  d <> doc_id -> has_doc_id d row = true -> doc_id_differs doc_id row = true.
Proof.
  unfold has_doc_id, doc_id_differs. intros Hne.
  destruct (dict_get "doc_id" row) as [[]|]; try discriminate.
  intros E. apply String.eqb_eq in E. subst.
  destruct (String.eqb d doc_id) eqn:E; [|reflexivity].
  apply String.eqb_eq in E. congruence.
Qed.

Lemma count_doc_filter_same (doc_id : string) (rows : list document) :
  count_doc doc_id (filter (doc_id_differs doc_id) rows) = 0%nat.
Proof.
  apply count_doc_zero. intros r Hr. apply filter_In in Hr.
  destruct Hr as [_ Hr].
  destruct (has_doc_id doc_id r) eqn:E; [|reflexivity].
  rewrite (has_doc_id_differs _ _ E) in Hr. discriminate.
Qed.

Lemma filter_doc_other (d doc_id : string) (rows : list document) :
  d <> doc_id ->
  filter (has_doc_id d) (filter (doc_id_differs doc_id) rows)
  = filter (has_doc_id d) rows.
Proof.
  intros Hne. induction rows as [|r rs IH]; simpl; [reflexivity|].
  destruct (doc_id_differs doc_id r) eqn:E; simpl;
    destruct (has_doc_id d r) eqn:Ed; simpl; rewrite ?IH; auto.
  rewrite (has_doc_id_other d doc_id r Hne Ed) in E. discriminate.
Qed.

Lemma select_rows_under_limit (where_ne : option string)
  (rows : list document) :
  Z.of_nat (List.length rows) <= 10000 ->
  select_rows where_ne 10000 rows
  = match where_ne with
    | None => rows
    | Some d => filter (doc_id_differs d) rows
    end.
Proof.
  intros H. unfold select_rows. apply firstn_all2.
  destruct where_ne; [|lia].
  pose proof (filter_length_le (doc_id_differs s) rows). lia.
Qed.

(** X6: a deletion whose rebuild goes through leaves no row of the
    deleted document in the index; and when the index holds at most
    10000 rows, every other document keeps all its rows, in their
    order. *)
Theorem delete_removes_rows (doc_id : string) (w : World) :
  dict_has doc_id (documents_store w) = true ->
  _embeddings_indexed w = true ->
  hd false (faults (embeddings w)) = false ->
  hd false (tl (faults (embeddings w))) = false ->
  let rows := sections (embeddings w) in
  let rows' := sections (embeddings (snd (delete_document doc_id w))) in
  count_doc doc_id rows' = 0%nat
  /\ (Z.of_nat (List.length rows) <= 10000 ->
      forall d, d <> doc_id ->
        filter (has_doc_id d) rows' = filter (has_doc_id d) rows).
Proof.
  intros Hin Hidx Hf1 Hf2.
  rewrite (delete_document_cases doc_id w Hin), Hidx, Hf1, Hf2. simpl.
  split.
  - apply count_doc_zero. intros r Hr. unfold select_rows in Hr.
    apply firstn_incl in Hr. revert r Hr. apply count_doc_zero.
    apply count_doc_filter_same.
  - intros Hlen d Hd.
    rewrite (select_rows_under_limit (Some doc_id) _ Hlen).
    now apply filter_doc_other.
Qed.

(** The state after [animals] and then [plants] were inserted, the index
    never failing. *)
Lemma delete_removes_rows_witness :
  let w := snd (process_text plants (indexed_animals half [])) in
  let rows' := sections (embeddings (snd (delete_document animals_id w))) in
  count_doc animals_id rows' = 0%nat
  /\ filter (has_doc_id (MD5.hexdigest (content plants))) rows'
     = filter (has_doc_id (MD5.hexdigest (content plants)))
         (sections (embeddings w)).
Proof.
  intros w rows'.
  destruct (delete_removes_rows animals_id w) as [H0 Hother].
  1-4: vm_compute; reflexivity.
  split; [exact H0|]. apply Hother.
  - vm_compute. discriminate.
  - vm_compute. discriminate.
Defined.

(** X8: a deletion in state NotIndexed makes no call to the index at
    all: the registry entry goes, the index is left as it is. *)
Theorem delete_not_indexed (doc_id : string) (w : World) :
  dict_has doc_id (documents_store w) = true ->
  _embeddings_indexed w = false ->
  delete_document doc_id w
  = (Ok {| dr_message := "Document deleted"; dr_doc_id := doc_id |},
     {| documents_store := dict_del doc_id (documents_store w);
        _embeddings_indexed := false;
        embeddings := embeddings w |}).
Proof.
  intros Hin Hidx. rewrite (delete_document_cases doc_id w Hin), Hidx.
  simpl. destruct (embeddings w); reflexivity.
Qed.

Lemma delete_not_indexed_witness :
  let w := snd (process_text animals (startup half [true])) in
  calls (embeddings (snd (delete_document animals_id w)))
  = calls (embeddings w).
Proof.
  intros w. rewrite (delete_not_indexed animals_id w); reflexivity.
Defined.

(** X9: after a deletion whose rebuild failed, at the read-back or at
    the commit, the rows committed before are all still in the index,
    those of the deleted document among them, and every search answers
    with no result and makes no call to the index. *)
Theorem search_after_failed_delete (doc_id : string) (w : World)
  (request : SearchRequest) :
  dict_has doc_id (documents_store w) = true ->
  _embeddings_indexed w = true ->
  hd false (faults (embeddings w)) = true
  \/ hd false (tl (faults (embeddings w))) = true ->
  let w1 := snd (delete_document doc_id w) in
  sections (embeddings w1) = sections (embeddings w)
  /\ search request w1
     = (Ok {| sr_results := [];
              sr_message := Some "No documents indexed";
              sr_query := None |}, w1).
Proof.
  intros Hin Hidx Hfail.
  rewrite (delete_document_cases doc_id w Hin), Hidx. simpl.
  destruct (hd false (faults (embeddings w)));
    [|destruct (hd false (tl (faults (embeddings w))));
      [|destruct Hfail; discriminate]];
    simpl; split; reflexivity.
Qed.

Lemma search_after_failed_delete_witness :
  let w := indexed_animals half [false; true] in
  let w1 := snd (delete_document animals_id w) in
  count_doc animals_id (sections (embeddings w1)) = 1%nat
  /\ fst (search (mammals half) w1)
     = Ok {| sr_results := [];
             sr_message := Some "No documents indexed";
             sr_query := None |}.
Proof.
  intros w w1.
  destruct (search_after_failed_delete animals_id w (mammals half))
    as [Hs Hr].
  - vm_compute. reflexivity.
  - vm_compute. reflexivity.
  - right. vm_compute. reflexivity.
  - fold w1 in Hs, Hr. rewrite Hs, Hr. split; vm_compute; reflexivity.
Defined.

Lemma dict_get_set_other_key {V : Type} (k k0 : string) (v : V) (d : dict V) :
  k <> k0 -> dict_get k (dict_set k0 v d) = dict_get k d.
Proof.
  intros H. apply dict_get_set_other.
  destruct (String.eqb k k0) eqn:E; [|reflexivity].
  apply String.eqb_eq in E. congruence.
Qed.

(** X10: an insert in state NotIndexed whose commit goes through
    replaces whatever the index held by the rows of the new document
    alone (rows left behind by a failed rebuild are gone), and sets the
    flag; the registry entries of all other documents stay. *)
Theorem insert_replaces_generation (request : DocumentRequest)
  (m : dict pyval) (w : World) :
  metadata request = Some m ->
  _embeddings_indexed w = false ->
  hd false (faults (embeddings w)) = false ->
  let w' := snd (process_text request w) in
  fst (process_text request w) = Ok (success_response request)
  /\ _embeddings_indexed w' = true
  /\ sections (embeddings w') = new_documents request m
  /\ (forall k, k <> MD5.hexdigest (content request) ->
        dict_get k (documents_store w') = dict_get k (documents_store w)).
Proof.
  intros Hm Hidx Hf. rewrite (process_text_cases request m w Hm), Hidx, Hf.
  simpl. repeat split. intros k Hk. now apply dict_get_set_other_key.
Qed.

Lemma insert_replaces_generation_witness :
  let w := snd (delete_document animals_id
                  (snd (process_text plants
                          (indexed_animals half [false; false; true])))) in
  let w' := snd (process_text animals w) in
  List.length (sections (embeddings w)) = 2%nat
  /\ sections (embeddings w') = new_documents animals []
  /\ dict_has (MD5.hexdigest (content plants)) (documents_store w') = true.
Proof.
  intros w w'.
  destruct (insert_replaces_generation animals [] w) as (_ & _ & Hs & Hk).
  1-3: vm_compute; reflexivity.
  split; [vm_compute; reflexivity|]. split; [exact Hs|].
  unfold dict_has. rewrite Hk; [vm_compute; reflexivity|].
  vm_compute. discriminate.
Defined.

(** X11: an insert in state Indexed with the index answering appends:
    the new generation is the first 10000 committed rows, in their
    order, followed by the rows of the new document; with at most 10000
    rows committed nothing is lost, with more the rows past the first
    10000 are dropped. *)
Theorem insert_appends (request : DocumentRequest) (m : dict pyval)
  (w : World) :
  metadata request = Some m ->
  _embeddings_indexed w = true ->
  hd false (faults (embeddings w)) = false ->
  hd false (tl (faults (embeddings w))) = false ->
  let rows := sections (embeddings w) in
  let rows' := sections (embeddings (snd (process_text request w))) in
  fst (process_text request w) = Ok (success_response request)
  /\ rows' = (firstn (Z.to_nat 10000) rows ++ new_documents request m)%list
  /\ (Z.of_nat (List.length rows) <= 10000 ->
        rows' = (rows ++ new_documents request m)%list)
  /\ (10000 < Z.of_nat (List.length rows) ->
        Z.of_nat (List.length rows')
        = 10000 + Z.of_nat (List.length (simple_segment (content request) 500))).
Proof.
  intros Hm Hidx Hf1 Hf2.
  pose proof (process_text_cases request m w Hm) as E.
  cbv zeta in E. rewrite Hidx, Hf1, Hf2 in E. simpl in E. rewrite E.
  cbn [fst snd sections embeddings].
  split; [reflexivity|]. split; [reflexivity|]. split.
  - intros Hlen. now rewrite (select_rows_under_limit None _ Hlen).
  - intros Hlen. unfold select_rows.
    rewrite List.length_app, length_firstn.
    unfold new_documents. rewrite chunk_documents_length. lia.
Qed.

Lemma insert_appends_witness :
  let w := indexed_animals half [] in
  sections (embeddings (snd (process_text plants w)))
  = (sections (embeddings w) ++ new_documents plants [])%list.
Proof.
  intros w.
  destruct (insert_appends plants [] w) as (_ & _ & H & _).
  1-4: vm_compute; reflexivity.
  apply H. vm_compute. discriminate.
Defined.

(** X12: an insert in state Indexed whose read-back goes through but
    whose commit of the combined rows raises falls back as well: when
    the second commit goes through, the index holds the rows of the new
    document alone and the request is answered with success. *)
Theorem insert_commit_fallback (request : DocumentRequest) (m : dict pyval)
  (w : World) (rest : list bool) :
  metadata request = Some m ->
  _embeddings_indexed w = true ->
  faults (embeddings w) = false :: true :: false :: rest ->
  let w' := snd (process_text request w) in
  fst (process_text request w) = Ok (success_response request)
  /\ _embeddings_indexed w' = true
  /\ sections (embeddings w') = new_documents request m
  /\ calls (embeddings w')
     = CallIndex (new_documents request m)
         :: CallIndex (select_rows None 10000 (sections (embeddings w))
                         ++ new_documents request m)
         :: CallSelect None 10000 :: calls (embeddings w).
Proof.
  intros Hm Hidx Hf. rewrite (process_text_cases request m w Hm), Hidx, Hf.
  simpl. repeat split.
Qed.

Lemma insert_commit_fallback_witness :
  let w := indexed_animals half [false; true; false] in
  let w' := snd (process_text plants w) in
  fst (process_text plants w) = Ok (success_response plants)
  /\ count_doc animals_id (sections (embeddings w')) = 0%nat.
Proof.
  intros w w'.
  destruct (insert_commit_fallback plants [] w []) as (Hr & _ & Hs & _).
  1-3: vm_compute; reflexivity.
  split; [exact Hr|]. fold w' in Hs. rewrite Hs. vm_compute. reflexivity.
Defined.

(** ** The registry *)

Lemma dict_has_In {V : Type} (k : string) (d : dict V) :
  dict_has k d = true <-> In k (map fst d).
Proof.
  unfold dict_has. induction d as [|[k' v] r IH]; simpl.
  - split; [discriminate | tauto].
  - destruct (String.eqb k k') eqn:E.
    + apply String.eqb_eq in E. subst. tauto.
    + rewrite IH. split; [tauto|]. intros [H | H]; [|exact H].
      subst. rewrite String.eqb_refl in E. discriminate.
Qed.

Lemma dict_set_new {V : Type} (k : string) (v : V) (d : dict V) :
  dict_has k d = false -> dict_set k v d = (d ++ [(k, v)])%list.
Proof.
  unfold dict_has. induction d as [|[k' v'] r IH]; simpl; [reflexivity|].
  destruct (String.eqb k k'); [discriminate|]. intros H. now rewrite IH.
Qed.

Lemma dict_set_known {V : Type} (k : string) (v : V) (d : dict V) :
  dict_has k d = true -> map fst (dict_set k v d) = map fst d.
Proof.
  unfold dict_has. induction d as [|[k' v'] r IH]; simpl; [discriminate|].
  destruct (String.eqb k k') eqn:E; simpl.
  - apply String.eqb_eq in E. now subst.
  - intros H. now rewrite IH.
Qed.

Lemma dict_del_keys {V : Type} (k x : string) (d : dict V) :
  In x (map fst (dict_del k d)) -> In x (map fst d).
Proof.
  induction d as [|[k' v'] r IH]; simpl; [tauto|].
  destruct (String.eqb k k'); simpl; tauto.
Qed.

Lemma dict_del_NoDup {V : Type} (k : string) (d : dict V) :
  NoDup (map fst d) -> NoDup (map fst (dict_del k d)).
Proof.
  induction d as [|[k' v'] r IH]; simpl; [auto|].
  intros H. inversion H as [|x l Hx Hl]; subst.
  destruct (String.eqb k k'); simpl; [exact Hl|].
  constructor; [|now apply IH].
  intros Hin. apply Hx. now apply dict_del_keys in Hin.
Qed.

Lemma dict_del_has {V : Type} (k : string) (d : dict V) :
  NoDup (map fst d) -> dict_has k (dict_del k d) = false.
Proof.
  intros Hnd. destruct (dict_has k (dict_del k d)) eqn:E; [|reflexivity].
  exfalso. apply dict_has_In in E. revert Hnd E.
  induction d as [|[k' v'] r IH]; simpl; [tauto|].
  intros H. inversion H as [|x l Hx Hl]; subst.
  destruct (String.eqb k k') eqn:Ek; simpl.
  - apply String.eqb_eq in Ek. subst. exact Hx.
  - intros [E | E]; [|now apply IH].
    subst. rewrite String.eqb_refl in Ek. discriminate.
Qed.

Lemma dict_del_length {V : Type} (k : string) (d : dict V) :
  dict_has k d = true ->
  List.length d = S (List.length (dict_del k d)).
Proof.
  unfold dict_has. induction d as [|[k' v'] r IH]; simpl; [discriminate|].
  destruct (String.eqb k k'); simpl; [reflexivity|].
  intros H. now rewrite IH.
Qed.

Lemma dict_get_del_other {V : Type} (k k0 : string) (d : dict V) :
  k <> k0 -> dict_get k (dict_del k0 d) = dict_get k d.
Proof.
  intros Hne. induction d as [|[k' v'] r IH]; simpl; [reflexivity|].
  destruct (String.eqb k0 k') eqn:E0; simpl.
  - apply String.eqb_eq in E0. subst k'.
    destruct (String.eqb k k0) eqn:E; [|reflexivity].
    apply String.eqb_eq in E. congruence.
  - now rewrite IH.
Qed.

Lemma delete_document_absent (doc_id : string) (w : World) :
  dict_has doc_id (documents_store w) = false ->
  exists detail,
    delete_document doc_id w = (Raise (HTTPException 500 detail), w).
Proof.
  intros H. unfold_py. step_with H. eauto.
Qed.

(** X14: with pairwise different registry keys, deleting a registered
    id removes it: the id is no longer in the registry, which is one
    entry shorter and otherwise as before, and deleting the same id
    again is answered with a 500. *)
Theorem delete_unregisters (doc_id : string) (w : World) :
  NoDup (map fst (documents_store w)) ->
  dict_has doc_id (documents_store w) = true ->
  let w1 := snd (delete_document doc_id w) in
  dict_has doc_id (documents_store w1) = false
  /\ Z.of_nat (List.length (documents_store w1))
     = Z.of_nat (List.length (documents_store w)) - 1
  /\ (forall k, k <> doc_id ->
        dict_get k (documents_store w1) = dict_get k (documents_store w))
  /\ exists detail,
       fst (delete_document doc_id w1) = Raise (HTTPException 500 detail).
Proof.
  intros Hnd Hin. intros w1.
  assert (Hstore : documents_store w1 = dict_del doc_id (documents_store w)).
  { unfold w1. rewrite (delete_document_cases doc_id w Hin).
    destruct (_embeddings_indexed w); simpl;
      destruct (hd false (faults (embeddings w)));
      destruct (hd false (tl (faults (embeddings w)))); reflexivity. }
  rewrite Hstore.
  pose proof (dict_del_has doc_id _ Hnd) as Hgone.
  split; [exact Hgone|]. split.
  - rewrite (dict_del_length doc_id _ Hin). lia.
  - split; [intros k Hk; now apply dict_get_del_other|].
    rewrite <- Hstore in Hgone.
    destruct (delete_document_absent doc_id w1 Hgone) as [detail ->].
    now exists detail.
Qed.

Lemma delete_unregisters_witness :
  let w1 := snd (delete_document animals_id (indexed_animals half [])) in
  dict_has animals_id (documents_store w1) = false
  /\ exists detail,
       fst (delete_document animals_id w1)
       = Raise (HTTPException 500 detail).
Proof.
  destruct (delete_unregisters animals_id (indexed_animals half []))
    as (H1 & _ & _ & H2).
  - vm_compute. constructor; [intros [] | constructor].
  - vm_compute. reflexivity.
  - split; assumption.
Defined.




(** ** What each handler leaves untouched *)

Lemma process_text_store (request : DocumentRequest) (w : World) :
  documents_store (snd (process_text request w))
  = match metadata request with
    | Some _ =>
        dict_set (MD5.hexdigest (content request)) (new_entry request)
          (documents_store w)
    | None => documents_store w
    end.
Proof.
  destruct (metadata request) as [m|] eqn:Hm.
  - rewrite (process_text_cases request m w Hm).
    destruct (_embeddings_indexed w); simpl;
      destruct (hd false (faults (embeddings w)));
      destruct (hd false (tl (faults (embeddings w))));
      destruct (hd false (tl (tl (faults (embeddings w))))); reflexivity.
  - now rewrite (process_text_no_metadata request w Hm).
Qed.

Lemma search_frame (request : SearchRequest) (w : World) :
  let w' := snd (search request w) in
  documents_store w' = documents_store w
  /\ _embeddings_indexed w' = _embeddings_indexed w
  /\ sections (embeddings w') = sections (embeddings w).
Proof.
  unfold_py. destruct (_embeddings_indexed w) eqn:Hidx; simpl; [|auto].
  destruct (hd false (faults (embeddings w))); simpl; [auto|].
  destruct (format_results _ _ _); simpl; auto.
Qed.

Lemma get_stats_frame (w : World) :
  let w' := snd (get_stats w) in
  documents_store w' = documents_store w
  /\ _embeddings_indexed w' = _embeddings_indexed w
  /\ sections (embeddings w') = sections (embeddings w).
Proof.
  unfold_more. destruct (_embeddings_indexed w) eqn:Hidx; simpl; [|auto].
  destruct (hd false (faults (embeddings w))); simpl; auto.
Qed.

Lemma delete_document_store (doc_id : string) (w : World) :
  documents_store (snd (delete_document doc_id w))
  = if dict_has doc_id (documents_store w)
    then dict_del doc_id (documents_store w)
    else documents_store w.
Proof.
  destruct (dict_has doc_id (documents_store w)) eqn:Hin.
  - rewrite (delete_document_cases doc_id w Hin).
    destruct (_embeddings_indexed w); simpl;
      destruct (hd false (faults (embeddings w)));
      destruct (hd false (tl (faults (embeddings w)))); reflexivity.
  - destruct (delete_document_absent doc_id w Hin) as [detail ->].
    reflexivity.
Qed.

Lemma snd_try_internal {A : Type} (m : M A) (w : World) :
  snd (try_except m internal_error w) = snd (m w).
Proof.
  unfold try_except, internal_error, raise.
  destruct (m w) as [[a | e] w']; reflexivity.
Qed.

Lemma process_file_store (ex : Extractors) (file : UploadFile) (w : World) :
  documents_store (snd (process_file ex file w)) = documents_store w
  \/ exists request,
       documents_store (snd (process_file ex file w))
       = documents_store (snd (process_text request w)).
Proof.
  unfold process_file. rewrite snd_try_internal.
  destruct (filename file) as [name|]; [|now left].
  unfold bind, lift.
  destruct (extract ex (file_kind_of name) (file_bytes file)) as [text | e];
    [|now left].
  right. now exists (file_request name file text).
Qed.

Lemma registry_wf_set (text : string) (v : doc_info) (store : dict doc_info) :
  NoDup (map fst store)
  /\ Forall (fun k => exists t, k = MD5.hexdigest t) (map fst store) ->
  NoDup (map fst (dict_set (MD5.hexdigest text) v store))
  /\ Forall (fun k => exists t, k = MD5.hexdigest t)
       (map fst (dict_set (MD5.hexdigest text) v store)).
Proof.
  intros [Hnd Hall].
  destruct (dict_has (MD5.hexdigest text) store) eqn:E.
  - now rewrite (dict_set_known _ v _ E).
  - rewrite (dict_set_new _ v _ E), map_app. simpl. split.
    + apply NoDup_app; auto.
      * constructor; [intros [] | constructor].
      * intros a Ha [<- | []]. apply dict_has_In in Ha. congruence.
    + apply Forall_app. split; [exact Hall|].
      constructor; [now exists text | constructor].
Qed.

Lemma registry_wf_process_text (request : DocumentRequest) (w : World) :
  registry_wf w -> registry_wf (snd (process_text request w)).
Proof.
  unfold registry_wf. rewrite process_text_store.
  destruct (metadata request); [apply registry_wf_set | auto].
Qed.

Lemma registry_wf_step (ex : Extractors) (w : World) (c : api_call) :
  registry_wf w -> registry_wf (step ex w c).
Proof.
  intros Hwf. destruct c as [request | file | request | request | | doc_id |];
    simpl.
  - now apply registry_wf_process_text.
  - destruct (process_file_store ex file w) as [E | [request E]];
      unfold registry_wf; rewrite E; [exact Hwf|].
    now apply registry_wf_process_text.
  - destruct (search_frame request w) as (E & _). unfold registry_wf.
    now rewrite E.
  - exact Hwf.
  - exact Hwf.
  - unfold registry_wf. rewrite delete_document_store.
    destruct (dict_has doc_id (documents_store w)); [|exact Hwf].
    destruct Hwf as [Hnd Hall]. split; [now apply dict_del_NoDup|].
    rewrite Forall_forall in *. intros k Hk. apply Hall.
    now apply dict_del_keys in Hk.
  - destruct (get_stats_frame w) as (E & _). unfold registry_wf.
    now rewrite E.
Qed.

(** X13: whatever requests are served after start-up, whatever the index
    and the extractors do, the registry keeps one entry per document id,
    and every id in it is the MD5 hex digest of some text. *)
Theorem registry_keys_unique (ex : Extractors) (cs : list api_call)
  (s : float) (fl : list bool) :
  registry_wf (run ex cs (startup s fl)).
Proof.
  unfold run.
  assert (H : registry_wf (startup s fl))
    by (split; simpl; constructor).
  revert H. generalize (startup s fl).
  induction cs as [|c r IH]; intros w Hw; simpl; [exact Hw|].
  apply IH. now apply registry_wf_step.
Qed.

(** X17: [search] only reads: whatever it answers, the registry, the
    flag and the committed rows are as before; in state Indexed a
    raising index makes it fail with a 500. *)
Theorem search_read_only (request : SearchRequest) (w : World) :
  let w' := snd (search request w) in
  documents_store w' = documents_store w
  /\ _embeddings_indexed w' = _embeddings_indexed w
  /\ sections (embeddings w') = sections (embeddings w)
  /\ (_embeddings_indexed w = true ->
      hd false (faults (embeddings w)) = true ->
        fst (search request w)
        = Raise (HTTPException 500 "index unavailable")).
Proof.
  destruct (search_frame request w) as (H1 & H2 & H3).
  repeat split; auto.
  intros Hidx Hf. unfold_py. step_with Hidx. step_with Hf. reflexivity.
Qed.

Lemma search_read_only_witness :
  fst (search (mammals half) (indexed_animals half [true]))
  = Raise (HTTPException 500 "index unavailable").
Proof.
  destruct (search_read_only (mammals half) (indexed_animals half [true]))
    as (_ & _ & _ & H).
  apply H; vm_compute; reflexivity.
Defined.

(** X16: [get_stats] never fails and always reports status
    ["operational"]: the number of registry entries, and as chunks the
    number of rows read back, at most 10000, in state Indexed when the
    read-back goes through, and zero otherwise; the registry, the flag
    and the committed rows are as before. *)
Theorem get_stats_operational (w : World) :
  let w' := snd (get_stats w) in
  fst (get_stats w)
  = Ok {| st_documents := Z.of_nat (List.length (documents_store w));
          st_chunks :=
            if _embeddings_indexed w
               && negb (hd false (faults (embeddings w)))
            then Z.min 10000 (Z.of_nat (List.length (sections (embeddings w))))
            else 0;
          st_model := model_name;
          st_status := "operational";
          st_error := None |}
  /\ documents_store w' = documents_store w
  /\ _embeddings_indexed w' = _embeddings_indexed w
  /\ sections (embeddings w') = sections (embeddings w).
Proof.
  split; [|apply get_stats_frame].
  unfold_more. destruct (_embeddings_indexed w) eqn:Hidx; simpl; [|auto].
  destruct (hd false (faults (embeddings w))); simpl; [reflexivity|].
  do 2 f_equal. unfold select_rows. rewrite length_firstn. lia.
Qed.

(** X19: [chunk_text] never fails and touches nothing: it answers with
    the chunks [simple_segment] makes of the content for the requested
    size, their number, which is at least one, and their mean length as
    a float (the branch giving 0 for no chunks is never taken). *)
Theorem chunk_text_total (request : ChunkRequest) (w : World) :
  let chunks := simple_segment (cr_content request) (chunk_size request) in
  chunk_text request w
  = (Ok {| ck_chunks := chunks;
           ck_count := Z.of_nat (List.length chunks);
           ck_avg_size :=
             PFloat (int_true_div (total_len chunks)
                       (Z.of_nat (List.length chunks))) |}, w)
  /\ 1 <= Z.of_nat (List.length chunks).
Proof.
  intros chunks. unfold_more.
  pose proof (simple_segment_nonempty (cr_content request)
                (chunk_size request)) as Hne.
  fold chunks in Hne |- *.
  destruct chunks as [|c r]; [congruence|].
  split; [reflexivity | simpl List.length; lia].
Qed.

(** ** [process_file] *)

(** X20: an upload whose text is extracted is handled as [process_text]
    handles that text with the file name as title and the file name and
    content type as metadata: the state afterwards is the same, a
    success is passed on, and a failure is answered with a 500 again;
    the metadata being a dict without an [id] key, the rows built carry
    the ids [doc_id_0], [doc_id_1], ... *)
Theorem process_file_as_text (ex : Extractors) (file : UploadFile)
  (name text : string) (w : World) :
  filename file = Some name ->
  extract ex (file_kind_of name) (file_bytes file) = Ok text ->
  let request := file_request name file text in
  snd (process_file ex file w) = snd (process_text request w)
  /\ (forall resp, fst (process_text request w) = Ok resp ->
        fst (process_file ex file w) = Ok resp)
  /\ (forall e, fst (process_text request w) = Raise e ->
        fst (process_file ex file w) = Raise (HTTPException 500 (str_exn e)))
  /\ forall m, metadata request = Some m ->
       map row_id (new_documents request m)
       = map (fun j => Some (PStr (MD5.hexdigest text ++ "_" ++ str_of_nat j)))
           (seq 0 (List.length (simple_segment text 500))).
Proof.
  intros Hname Htext request.
  assert (E : process_file ex file w
              = try_except (process_text request) internal_error w).
  { unfold process_file, try_except, bind, lift.
    rewrite Hname, Htext. reflexivity. }
  rewrite E. split; [apply snd_try_internal|].
  unfold try_except, internal_error, raise.
  split; [|split].
  - intros resp H. destruct (process_text request w) as [[a | e] w'];
      simpl in *; congruence.
  - intros e H. destruct (process_text request w) as [[a | e'] w'];
      simpl in *; congruence.
  - intros m Hm. injection Hm as <-.
    apply (chunk_documents_ids (MD5.hexdigest text) name _
             (simple_segment text 500)).
    reflexivity.
Qed.

Lemma process_file_as_text_witness :
  fst (process_file text_only notes_txt (startup half []))
  = fst (process_text (file_request "notes.txt" notes_txt "Hi.")
           (startup half [])).
Proof.
  destruct (process_file_as_text text_only notes_txt "notes.txt" "Hi."
              (startup half []) eq_refl eq_refl) as (_ & Hok & _).
  assert (H : fst (process_text (file_request "notes.txt" notes_txt "Hi.")
                     (startup half []))
              = Ok (success_response (file_request "notes.txt" notes_txt "Hi.")))
    by (vm_compute; reflexivity).
  rewrite H. now apply Hok.
Defined.

(** X21: an upload without a file name, or whose extraction raises, is
    answered with a 500 before anything happens: no registry entry is
    written and the index is not called. *)
Theorem process_file_extraction_failure (ex : Extractors) (file : UploadFile)
  (w : World) :
  match filename file with
  | None => True
  | Some name =>
      exists e, extract ex (file_kind_of name) (file_bytes file) = Raise e
  end ->
  exists detail,
    process_file ex file w = (Raise (HTTPException 500 detail), w).
Proof.
  unfold process_file, try_except, bind, lift, internal_error, raise.
  destruct (filename file) as [name|].
  - intros [e ->]. eauto.
  - intros _. eauto.
Qed.

Lemma process_file_extraction_failure_witness :
  exists detail,
    process_file text_only
      {| filename := Some "scan.PDF"; content_type := None; file_bytes := [] |}
      (startup half [])
    = (Raise (HTTPException 500 detail), startup half []).
Proof.
  apply process_file_extraction_failure. simpl.
  eexists. reflexivity.
Defined.

(** ** The owner of a search result *)

Lemma hexdigit_not_underscore (x : Z) : Ascii.eqb (MD5.hexdigit x) "_" = false.
Proof.
  unfold MD5.hexdigit. generalize (Z.to_nat x). intros n.
  do 16 (destruct n as [|n]; [reflexivity|]).
  destruct n; reflexivity.
Qed.

Lemma hexdigest_no_underscore (text : string) :
  no_underscore (MD5.hexdigest text) = true.
Proof.
  unfold MD5.hexdigest.
  destruct (MD5.digest (MD5.encode text)) as [[[a b] c] d].
  unfold MD5.hex_word, MD5.hex_byte. simpl.
  rewrite !hexdigit_not_underscore. reflexivity.
Qed.

Lemma prefix_same_length (k d x : string) :
  String.length k = String.length d ->
  String.prefix k (d ++ x) = true -> k = d.
Proof.
  revert d. induction k as [|c k IH]; intros [|a d]; simpl;
    try discriminate; [reflexivity|].
  intros Hl. injection Hl as Hl.
  destruct (ascii_dec c a) as [-> | _]; [|discriminate].
  intros H. now rewrite (IH d Hl H).
Qed.

Lemma prefix_app_self (d x : string) : String.prefix d (d ++ x) = true.
Proof.
  induction d as [|c d IH]; simpl; [now destruct x|].
  destruct (ascii_dec c c); [exact IH | congruence].
Qed.

Lemma prefix_too_short (k s : string) :
  (String.length s < String.length k)%nat -> String.prefix k s = false.
Proof.
  revert s. induction k as [|c k IH]; intros [|a s] H; simpl in *;
    try lia; try reflexivity.
  destruct (ascii_dec c a); [apply IH; lia | reflexivity].
Qed.

Lemma str_contains_nil (k : string) :
  str_contains k EmptyString = String.prefix k EmptyString || false.
Proof. reflexivity. Qed.

Lemma str_contains_cons (k : string) (a : ascii) (s : string) :
  str_contains k (String a s)
  = String.prefix k (String a s) || str_contains k s.
Proof. reflexivity. Qed.

Lemma str_contains_too_short (k s : string) :
  (String.length s < String.length k)%nat -> str_contains k s = false.
Proof.
  induction s as [|a s IH]; intros H.
  - rewrite str_contains_nil, (prefix_too_short k EmptyString H).
    reflexivity.
  - rewrite str_contains_cons, (prefix_too_short k (String a s) H).
    simpl in H. rewrite IH by lia. reflexivity.
Qed.

(** A key without underscore does not start inside the digest part of an
    id. *)
Lemma prefix_across_underscore (d' n : string) :
  forall k,
    no_underscore k = true ->
    (String.length d' < String.length k)%nat ->
    String.prefix k (d' ++ "_" ++ n) = false.
Proof.
  induction d' as [|a d' IH]; intros [|c k] Hk Hl; simpl in *; try lia.
  - apply andb_prop in Hk. destruct Hk as [Hc _].
    destruct (ascii_dec c "_") as [-> | _]; [discriminate | reflexivity].
  - apply andb_prop in Hk. destruct Hk as [_ Hk].
    destruct (ascii_dec c a); [apply IH; [exact Hk | lia] | reflexivity].
Qed.

Lemma str_contains_across_underscore (k n : string) (d' : string) :
  no_underscore k = true ->
  (String.length n < String.length k)%nat ->
  (String.length d' < String.length k)%nat ->
  str_contains k (d' ++ "_" ++ n) = false.
Proof.
  intros Hk Hn. induction d' as [|a d' IH]; intros Hl.
  - change (EmptyString ++ "_" ++ n) with (String "_" n).
    rewrite str_contains_cons, (str_contains_too_short k n Hn), orb_false_r.
    apply (prefix_across_underscore EmptyString n k Hk Hl).
  - change (String a d' ++ "_" ++ n) with (String a (d' ++ "_" ++ n)).
    rewrite str_contains_cons, IH by (simpl in Hl; lia).
    rewrite orb_false_r.
    apply (prefix_across_underscore (String a d') n k Hk Hl).
Qed.

(** Another document's id is not a part of the chunk id [d_n]. *)
Lemma str_contains_other_digest (k d n : string) :
  String.length k = String.length d ->
  no_underscore k = true ->
  (String.length n < String.length k)%nat ->
  k <> d ->
  str_contains k (d ++ "_" ++ n) = false.
Proof.
  intros Hl Hk Hn Hne. destruct d as [|a d'].
  - destruct k; [congruence | discriminate].
  - change (String a d' ++ "_" ++ n) with (String a (d' ++ "_" ++ n)).
    rewrite str_contains_cons.
    rewrite (str_contains_across_underscore k n d' Hk Hn)
      by (simpl in Hl; lia).
    rewrite orb_false_r.
    destruct (String.prefix k (String a (d' ++ "_" ++ n))) eqn:E;
      [|reflexivity].
    apply (prefix_same_length k (String a d') ("_" ++ n) Hl) in E.
    congruence.
Qed.

Lemma str_contains_self (d x : string) : str_contains d (d ++ x) = true.
Proof.
  destruct (d ++ x) eqn:E.
  - rewrite str_contains_nil, <- E, prefix_app_self. reflexivity.
  - rewrite str_contains_cons, <- E, prefix_app_self. reflexivity.
Qed.

Lemma find_owner_digest (text n : string) (store : dict doc_info) :
  NoDup (map fst store) ->
  Forall (fun k => exists t, k = MD5.hexdigest t) (map fst store) ->
  In (MD5.hexdigest text) (map fst store) ->
  (String.length n < 32)%nat ->
  find_owner (PStr (MD5.hexdigest text ++ "_" ++ n)) store
  = Ok (Some (MD5.hexdigest text)).
Proof.
  intros Hnd Hall Hin Hn.
  induction store as [|[k v] r IH]; [destruct Hin|].
  cbn [map fst] in Hnd, Hall, Hin.
  inversion Hnd as [|x l Hx Hl]; subst.
  inversion Hall as [|x l [t Ht] Hr]; subst.
  cbn [find_owner].
  destruct (string_dec (MD5.hexdigest t) (MD5.hexdigest text)) as [E | Hne].
  - rewrite E, str_contains_self. reflexivity.
  - rewrite (str_contains_other_digest (MD5.hexdigest t)
               (MD5.hexdigest text) n).
    + apply IH; [exact Hl | exact Hr |].
      destruct Hin as [Hin | Hin]; [contradiction | exact Hin].
    + rewrite !hexdigest_length. exact eq_refl.
    + apply hexdigest_no_underscore.
    + rewrite hexdigest_length. exact Hn.
    + exact Hne.
Qed.

Lemma find_owner_absent (text n : string) (store : dict doc_info) :
  Forall (fun k => exists t, k = MD5.hexdigest t) (map fst store) ->
  ~ In (MD5.hexdigest text) (map fst store) ->
  (String.length n < 32)%nat ->
  find_owner (PStr (MD5.hexdigest text ++ "_" ++ n)) store = Ok None.
Proof.
  intros Hall Hout Hn.
  induction store as [|[k v] r IH]; [reflexivity|].
  cbn [map fst] in Hall, Hout.
  inversion Hall as [|x l [t Ht] Hr]; subst.
  cbn [find_owner].
  rewrite (str_contains_other_digest (MD5.hexdigest t)
             (MD5.hexdigest text) n).
  - apply IH; [exact Hr|]. intros Hin. apply Hout. now right.
  - rewrite !hexdigest_length. exact eq_refl.
  - apply hexdigest_no_underscore.
  - rewrite hexdigest_length. exact Hn.
  - intros E. apply Hout. left. exact E.
Qed.

(** X18: a result that carries only the chunk id the service gave it
    (no [doc_id], no [title], the text present) is resolved exactly
    when its document is registered: then the first registry key
    contained in the id is the document's own and the title is the one
    the registry holds now; when the document is not registered no key
    is contained in the id, and [doc_id] and [title] stay empty. *)
Theorem search_resolves_owner (w : World) (r : hit) (text : string)
  (i : nat) :
  registry_wf w ->
  dict_get "id" (hit_fields r)
  = Some (PStr (MD5.hexdigest text ++ "_" ++ str_of_nat i)) ->
  (String.length (str_of_nat i) < 32)%nat ->
  dict_get "doc_id" (hit_fields r) = None ->
  dict_get "title" (hit_fields r) = None ->
  dict_has "text" (hit_fields r) = true ->
  format_result (documents_store w) r
  = Ok {| sc_text := dict_get_default "text" (PStr "") (hit_fields r);
          sc_score := hit_score r;
          sc_doc_id :=
            match dict_get (MD5.hexdigest text) (documents_store w) with
            | Some _ => PStr (MD5.hexdigest text)
            | None => PStr ""
            end;
          sc_title :=
            match dict_get (MD5.hexdigest text) (documents_store w) with
            | Some info => PStr (info_title info)
            | None => PStr ""
            end;
          sc_chunk_index :=
            dict_get_default "chunk_index" (PInt 0) (hit_fields r) |}.
Proof.
  intros [Hnd Hall] Hid Hn Hdoc Htitle Htext.
  unfold format_result, dict_get_default.
  rewrite Hdoc, Htitle, Htext, Hid. simpl pytruthy. simpl negb. simpl andb.
  destruct (dict_get (MD5.hexdigest text) (documents_store w))
    as [info|] eqn:Hinfo.
  - rewrite (find_owner_digest text (str_of_nat i) _ Hnd Hall); auto.
    + assert (Ht : truthy (MD5.hexdigest text) = true).
      { pose proof (hexdigest_length text) as Hl.
        destruct (MD5.hexdigest text); [discriminate | reflexivity]. }
      simpl pytruthy. rewrite Ht. simpl. rewrite Hinfo. reflexivity.
    + apply dict_has_In. unfold dict_has. now rewrite Hinfo.
  - rewrite (find_owner_absent text (str_of_nat i) _ Hall); auto.
    intros Hin. apply dict_has_In in Hin. unfold dict_has in Hin.
    rewrite Hinfo in Hin. discriminate.
Qed.

Lemma search_resolves_owner_witness :
  let w := snd (process_text plants (indexed_animals half [])) in
  let r := {| hit_score := half;
              hit_fields := [("id", PStr (animals_id ++ "_0"));
                             ("text", PStr "Cats are mammals.")] |} in
  format_result (documents_store w) r
  = Ok {| sc_text := PStr "Cats are mammals.";
          sc_score := half;
          sc_doc_id := PStr animals_id;
          sc_title := PStr "animals";
          sc_chunk_index := PInt 0 |}.
Proof.
  intros w r.
  assert (Hk : map fst (documents_store w)
               = [MD5.hexdigest (content animals);
                  MD5.hexdigest (content plants)])
    by (vm_compute; reflexivity).
  assert (Hwf : registry_wf w).
  { unfold registry_wf. rewrite Hk. split.
    - constructor; [|constructor; [intros [] | constructor]].
      intros [H | []]. vm_compute in H. discriminate.
    - constructor; [eexists; reflexivity|].
      constructor; [eexists; reflexivity | constructor]. }
  assert (H := search_resolves_owner w r (content animals) 0 Hwf).
  vm_compute in H. vm_compute. apply H; try reflexivity. lia.
Defined.

(** The same result after its document was deleted from the registry:
    nothing is resolved. *)
Example search_unregistered_owner :
  let w := snd (delete_document animals_id
                  (snd (process_text plants (indexed_animals half [])))) in
  let r := {| hit_score := half;
              hit_fields := [("id", PStr (animals_id ++ "_0"));
                             ("text", PStr "Cats are mammals.")] |} in
  format_result (documents_store w) r
  = Ok {| sc_text := PStr "Cats are mammals.";
          sc_score := half;
          sc_doc_id := PStr "";
          sc_title := PStr "";
          sc_chunk_index := PInt 0 |}.
Proof. vm_compute. reflexivity. Qed.

(** ** The handlers of [app_simple.py] *)

(** X22: in [app_simple.py], with the model path configured, an insert
    always reads back and commits old and new rows together, and nothing
    absorbs a raising index: the request fails with a 500 and the index
    keeps its rows, but the registry entry written before is there all
    the same; when both calls go through the rows of the new document
    follow the first 10000 committed ones. *)
Theorem simple_insert_no_fallback (path : option string)
  (request : DocumentRequest) (m : dict pyval) (w : World) :
  AppSimple.configured path = true ->
  metadata request = Some m ->
  let w' := snd (AppSimple.process_text path request w) in
  let answer := fst (AppSimple.process_text path request w) in
  let f1 := hd false (faults (embeddings w)) in
  let f2 := hd false (tl (faults (embeddings w))) in
  documents_store w'
  = dict_set (MD5.hexdigest (content request)) (new_entry request)
      (documents_store w)
  /\ (f1 = true ->
        answer = Raise (HTTPException 500 "index unavailable")
        /\ sections (embeddings w') = sections (embeddings w)
        /\ calls (embeddings w')
           = CallSelect None 10000 :: calls (embeddings w))
  /\ (f1 = false -> f2 = true ->
        answer = Raise (HTTPException 500 "index unavailable")
        /\ sections (embeddings w') = sections (embeddings w))
  /\ (f1 = false -> f2 = false ->
        answer = Ok (success_response request)
        /\ sections (embeddings w')
           = (select_rows None 10000 (sections (embeddings w))
                ++ new_documents request m)%list).
Proof.
  intros Hconf Hm. unfold_simple.
  rewrite (build_documents_some _ _ _ _ Hm), Hconf. simpl.
  fold (new_documents request m). fold (new_entry request).
  fold (success_response request).
  destruct (faults (embeddings w)) as [|[] [|[] r]]; simpl;
    repeat split; auto; discriminate.
Qed.

Lemma simple_insert_no_fallback_witness :
  let w' := snd (AppSimple.process_text (Some model_name) animals
                   (startup half [true])) in
  fst (AppSimple.process_text (Some model_name) animals (startup half [true]))
  = Raise (HTTPException 500 "index unavailable")
  /\ dict_has animals_id (documents_store w') = true.
Proof.
  destruct (simple_insert_no_fallback (Some model_name) animals []
              (startup half [true]) eq_refl eq_refl) as (Hs & Hfail & _).
  destruct (Hfail eq_refl) as (Ha & _). split; [exact Ha|].
  rewrite Hs. vm_compute. reflexivity.
Defined.

(** X23: in [app_simple.py], with the model path configured, the
    deletion of a registered id removes the registry entry first; when
    the read-back or the commit then raises, the request is answered
    with a 500 and the index keeps its rows, those of the deleted
    document among them, but the entry is gone. *)
Theorem simple_delete_not_atomic (path : option string) (doc_id : string)
  (w : World) :
  AppSimple.configured path = true ->
  dict_has doc_id (documents_store w) = true ->
  let w' := snd (AppSimple.delete_document path doc_id w) in
  let answer := fst (AppSimple.delete_document path doc_id w) in
  let f1 := hd false (faults (embeddings w)) in
  let f2 := hd false (tl (faults (embeddings w))) in
  documents_store w' = dict_del doc_id (documents_store w)
  /\ (f1 = true \/ f2 = true ->
        answer = Raise (HTTPException 500 "index unavailable")
        /\ sections (embeddings w') = sections (embeddings w))
  /\ (f1 = false -> f2 = false ->
        answer
        = Ok {| dr_message := "Document deleted"; dr_doc_id := doc_id |}
        /\ sections (embeddings w')
           = select_rows (Some doc_id) 10000 (sections (embeddings w))).
Proof.
  intros Hconf Hin. unfold_simple. step_with Hin. rewrite Hconf. simpl.
  destruct (faults (embeddings w)) as [|[] [|[] r]]; simpl;
    (split; [reflexivity|]);
    (split;
     [intros [Hx | Hx]; try discriminate; split; reflexivity
     |intros H1 H2; try discriminate; split; reflexivity]).
Qed.

Lemma simple_delete_not_atomic_witness :
  let w := indexed_animals half [true] in
  fst (AppSimple.delete_document (Some model_name) animals_id w)
  = Raise (HTTPException 500 "index unavailable")
  /\ documents_store
       (snd (AppSimple.delete_document (Some model_name) animals_id w))
     = [].
Proof.
  intros w.
  destruct (simple_delete_not_atomic (Some model_name) animals_id w eq_refl)
    as (Hs & Hfail & _).
  - vm_compute. reflexivity.
  - destruct Hfail as (Ha & _); [left; vm_compute; reflexivity|].
    split; [exact Ha|]. rewrite Hs. vm_compute. reflexivity.
Defined.

Lemma simple_format_results_filter (t : float) (raw : list hit) :
  AppSimple.format_results t raw
  = map AppSimple.format_result (filter (passes t) raw).
Proof.
  induction raw as [|r rest IH]; simpl; [reflexivity|].
  destruct (passes t r); simpl; now rewrite IH.
Qed.

(** X24: in [app_simple.py], with the model path configured, [search]
    always calls the index (the "No documents indexed" answer is never
    given); when the call returns, the results are the raw ones whose
    score is at least the threshold, in the order of the index, with
    [doc_id] and [title] as the raw result has them or empty, and no
    returned score is below the threshold; when the call raises, the
    answer is a 500. *)
Theorem simple_search_filter (path : option string)
  (request : SearchRequest) (w : World) :
  AppSimple.configured path = true ->
  let raw :=
    ranker (embeddings w) (query request) (limit request)
      (sections (embeddings w)) in
  let results :=
    map AppSimple.format_result (filter (passes (threshold request)) raw) in
  calls (embeddings (snd (AppSimple.search path request w)))
  = CallSimilar (query request) (limit request) :: calls (embeddings w)
  /\ (hd false (faults (embeddings w)) = false ->
        fst (AppSimple.search path request w)
        = Ok {| sr_results := results;
                sr_message := None;
                sr_query := Some (query request) |}
        /\ Forall (fun f => SFltb (sc_score f) (threshold request) = false)
             results)
  /\ (hd false (faults (embeddings w)) = true ->
        fst (AppSimple.search path request w)
        = Raise (HTTPException 500 "index unavailable")).
Proof.
  intros Hconf raw results. unfold_simple. rewrite Hconf. simpl.
  destruct (hd false (faults (embeddings w))); simpl.
  - split; [reflexivity|]. split; [discriminate | reflexivity].
  - split; [reflexivity|]. split; [|discriminate]. intros _.
    rewrite simple_format_results_filter. split; [reflexivity|].
    apply Forall_forall. intros f Hf. unfold results in Hf.
    apply in_map_iff in Hf. destruct Hf as (r & <- & Hr).
    apply filter_In in Hr. destruct Hr as [_ Hr].
    now apply SFleb_not_SFltb.
Qed.

Lemma simple_search_filter_witness :
  fst (AppSimple.search (Some model_name) (mammals half) (startup half []))
  = Ok {| sr_results := []; sr_message := None; sr_query := Some "mammals" |}.
Proof.
  destruct (simple_search_filter (Some model_name) (mammals half)
              (startup half []) eq_refl) as (_ & Hok & _).
  destruct (Hok eq_refl) as [H _]. rewrite H. reflexivity.
Defined.

(** X25: in [app_simple.py], with the model path configured,
    [get_stats] never raises but does report failure: when the read-back
    raises, the answer has status ["error"], zero chunks and the message
    of the exception; otherwise status ["operational"] and the number of
    rows read back, at most 10000. *)
Theorem simple_get_stats (path : option string) (w : World) :
  AppSimple.configured path = true ->
  let n := Z.of_nat (List.length (documents_store w)) in
  (hd false (faults (embeddings w)) = true ->
     fst (AppSimple.get_stats path w)
     = Ok {| st_documents := n; st_chunks := 0; st_model := model_name;
             st_status := "error";
             st_error := Some "index unavailable" |})
  /\ (hd false (faults (embeddings w)) = false ->
        fst (AppSimple.get_stats path w)
        = Ok {| st_documents := n;
                st_chunks :=
                  Z.min 10000
                    (Z.of_nat (List.length (sections (embeddings w))));
                st_model := model_name;
                st_status := "operational";
                st_error := None |}).
Proof.
  intros Hconf n. unfold_simple. rewrite Hconf. simpl.
  destruct (hd false (faults (embeddings w))); simpl.
  - split; [reflexivity | discriminate].
  - split; [discriminate|]. intros _. do 2 f_equal.
    unfold select_rows. rewrite length_firstn. lia.
Qed.

Lemma simple_get_stats_witness :
  fst (AppSimple.get_stats (Some model_name) (indexed_animals half [true]))
  = Ok {| st_documents := 1; st_chunks := 0; st_model := model_name;
          st_status := "error"; st_error := Some "index unavailable" |}.
Proof.
  destruct (simple_get_stats (Some model_name) (indexed_animals half [true])
              eq_refl) as [H _].
  rewrite H; vm_compute; reflexivity.
Defined.

(** ** The fallback splitter of [app.py] *)

Example split_terminals_examples :
  split_terminals false "a.b" = ["a"; "b"]
  /\ split_terminals false "a.." = ["a"; ""]
  /\ split_terminals false ".a" = [""; "a"]
  /\ split_terminals false "a?!b" = ["a"; "b"]
  /\ SimpleSegmentation "Hi there! How are you?  Fine..."
     = ["Hi there"; "How are you"; "Fine"]
  /\ SimpleSegmentation " . " = [].
Proof. vm_compute. repeat split. Qed.

Lemma has_terminal_cons_head (c : ascii) (l : list string) :
  is_terminal c = false ->
  Forall (fun p => has_terminal p = false) l ->
  Forall (fun p => has_terminal p = false) (cons_head c l).
Proof.
  intros Hc Hl. destruct l as [|p ps]; simpl.
  - constructor; [simpl; now rewrite Hc | constructor].
  - inversion Hl; subst. constructor; [simpl; now rewrite Hc | assumption].
Qed.

Lemma split_terminals_clean (s : string) :
  forall in_run,
    Forall (fun p => has_terminal p = false) (split_terminals in_run s).
Proof.
  induction s as [|c r IH]; intros in_run; simpl.
  - constructor; [reflexivity | constructor].
  - destruct (is_terminal c) eqn:Hc.
    + destruct in_run; [apply IH|]. constructor; [reflexivity | apply IH].
    + now apply has_terminal_cons_head.
Qed.

Lemma has_terminal_lstrip (p : string) :
  has_terminal p = false -> has_terminal (lstrip p) = false.
Proof.
  induction p as [|c r IH]; simpl; [reflexivity|].
  intros H. apply orb_false_elim in H. destruct H as [Hc Hr].
  destruct (isspace c); [now apply IH | simpl; now rewrite Hc, Hr].
Qed.

Lemma has_terminal_rstrip (p : string) :
  has_terminal p = false -> has_terminal (rstrip p) = false.
Proof.
  induction p as [|c r IH]; simpl; [reflexivity|].
  intros H. apply orb_false_elim in H. destruct H as [Hc Hr].
  specialize (IH Hr). destruct (rstrip r) as [|a t].
  - destruct (isspace c); simpl; [reflexivity | now rewrite Hc].
  - simpl in *. now rewrite Hc, IH.
Qed.

(** X26: every sentence the fallback splitter of [app.py] returns is
    non-empty, trimmed of surrounding whitespace and free of the
    characters . ! ? *)
Theorem SimpleSegmentation_sentences (text s : string) :
  In s (SimpleSegmentation text) ->
  s <> EmptyString /\ strip s = s /\ has_terminal s = false.
Proof.
  unfold SimpleSegmentation. intros H.
  apply in_map_iff in H. destruct H as (p & <- & Hp).
  apply filter_In in Hp. destruct Hp as [Hin Htruthy].
  split; [|split].
  - intros E. rewrite E in Htruthy. discriminate.
  - apply strip_idem.
  - unfold strip. apply has_terminal_rstrip, has_terminal_lstrip.
    pose proof (split_terminals_clean text false) as Hall.
    rewrite Forall_forall in Hall. now apply Hall.
Qed.

Lemma SimpleSegmentation_sentences_witness :
  "How are you" <> EmptyString
  /\ strip "How are you" = "How are you"
  /\ has_terminal "How are you" = false.
Proof.
  apply (SimpleSegmentation_sentences "Hi there! How are you?  Fine...").
  vm_compute. right; left; reflexivity.
Defined.

Lemma forallb_cons_head (c : ascii) (l : list string) :
  forallb all_space (cons_head c l) = isspace c && forallb all_space l.
Proof.
  destruct l as [|p ps]; simpl.
  - now rewrite !andb_true_r.
  - now rewrite andb_assoc.
Qed.

Lemma split_terminals_blank (s : string) :
  forall in_run,
    forallb all_space (split_terminals in_run s) = only_breaks s.
Proof.
  induction s as [|c r IH]; intros in_run; simpl; [reflexivity|].
  destruct (is_terminal c) eqn:Hc.
  - rewrite orb_true_r. simpl. destruct in_run; simpl; apply IH.
  - rewrite orb_false_r, forallb_cons_head. now rewrite IH.
Qed.

Lemma truthy_strip (p : string) : truthy (strip p) = negb (all_space p).
Proof.
  destruct (all_space p) eqn:E.
  - unfold strip. now rewrite (lstrip_all_space p E).
  - destruct (strip p) eqn:Es; [|reflexivity].
    apply strip_empty in Es. congruence.
Qed.

Lemma filter_nil_forallb {A : Type} (f g : A -> bool) (l : list A) :
  (forall x, f x = negb (g x)) ->
  filter f l = [] <-> forallb g l = true.
Proof.
  intros Hfg. induction l as [|x r IH]; simpl; [tauto|].
  rewrite Hfg. destruct (g x); simpl; [exact IH|].
  split; discriminate.
Qed.

(** X27: the fallback splitter of [app.py] returns no sentence at all
    exactly for the texts made of whitespace and the characters . ! ?
    only, the empty text among them. *)
Theorem SimpleSegmentation_empty (text : string) :
  SimpleSegmentation text = [] <-> only_breaks text = true.
Proof.
  unfold SimpleSegmentation.
  rewrite <- (split_terminals_blank text false).
  rewrite <- (filter_nil_forallb (fun s => truthy (strip s)) all_space _
                truthy_strip).
  destruct (filter _ (split_terminals false text)); simpl;
    split; congruence.
Qed.

(** ** The chunks of [simple_segment] *)

(** C5, as the code has it: for every text, empty or not,
    [simple_segment] returns at least one chunk; every chunk is trimmed,
    so a chunk that is not empty is not a run of whitespace; for a
    non-empty text that does not end with whitespace no chunk is empty;
    and a text that is not blank and has no terminal punctuation in
    front of whitespace comes back as the single chunk [strip text],
    which is not empty, and is the whole text when the text is already
    trimmed. *)
Theorem simple_segment_chunks (text : string) (max_length : Z) :
  simple_segment text max_length <> []
  /\ (forall c, In c (simple_segment text max_length) ->
        strip c = c /\ (c <> EmptyString -> all_space c = false))
  /\ (text <> EmptyString -> ends_with_space text = false ->
        forall c, In c (simple_segment text max_length) -> c <> EmptyString)
  /\ (has_break text = false -> all_space text = false ->
        simple_segment text max_length = [strip text]
        /\ strip text <> EmptyString
        /\ (strip text = text -> simple_segment text max_length = [text])).
Proof.
  rewrite simple_segment_accumulate. split; [|split; [|split]].
  - apply accumulate_nonempty. left. apply re_split_go_nonempty.
  - intros c Hc. apply accumulate_trimmed in Hc.
    split; [exact Hc|]. intros Hne.
    destruct (strip_fixed_not_blank c Hc); [contradiction | assumption].
  - intros Hne Hend c.
    pose proof (sentence_split_not_blank _ _ (re_split_sentences_split text)
                  Hne Hend) as Hpieces.
    rewrite (accumulate_groups max_length _ []).
    intros Hin. apply in_map_iff in Hin. destruct Hin as (g & <- & Hg).
    intros Hempty. apply strip_empty in Hempty.
    rewrite buffer_of_not_blank in Hempty; [discriminate | |].
    + pose proof (group_sentences_nonempty max_length
                    (re_split_sentences text) []) as Hn.
      rewrite Forall_forall in Hn. now apply Hn.
    + apply Forall_forall. intros s Hs.
      rewrite Forall_forall in Hpieces. apply Hpieces.
      pose proof (group_sentences_concat max_length
                    (re_split_sentences text) []) as Hc.
      simpl in Hc. rewrite <- Hc. apply in_concat. eauto.
  - intros H Hblank.
    rewrite (re_split_sentences_whole text H), accumulate_single.
    split; [reflexivity|]. split; [|now intros ->].
    intros E. apply strip_empty in E. congruence.
Qed.

Lemma simple_segment_chunks_witness :
  simple_segment "no punctuation here" 500 = ["no punctuation here"]
  /\ "a." <> EmptyString
  /\ all_space "a." = false.
Proof.
  pose proof (simple_segment_chunks "no punctuation here" 500)
    as (_ & _ & _ & H).
  destruct (H eq_refl eq_refl) as (_ & _ & H'). split.
  - apply H'. vm_compute. reflexivity.
  - pose proof (simple_segment_chunks " a. b" 2) as (_ & Hc & Hne & _).
    assert (Hin : In "a." (simple_segment " a. b" 2))
      by (vm_compute; left; reflexivity).
    assert (Ha : "a." <> EmptyString).
    { apply Hne; [discriminate | reflexivity | exact Hin]. }
    split; [exact Ha|]. now apply (Hc "a." Hin).
Defined.
